(** * Synthetic A/B-test population generator: a shallow embedding

    The development follows [src/data_generation/data_generator.py]:
    [generate_synthetic_data] (the population synthesizer) and
    [create_dataframes] (the projector onto the three tables the analyzer
    reads).

    Conventions of the embedding:
    - a pandas [Series] or numpy array is a [list]; a [DataFrame] is a record
      of columns;
    - a Python [float] is a real number ([R]); rounding is not modelled;
    - numpy's process-wide generator is a state threaded through an
      exception-and-state monad; the bit generator itself is a parameter
      ([BitGenerator]) that only promises the ranges of its primitive draws;
    - an exception raised by numpy or by [list.index] is a value of [exn]. *)

From Stdlib Require Import ZArith Reals Lra Lia String Ascii.
From stdpp Require Import base tactics option list strings.

Local Open Scope string_scope.
Local Open Scope Z_scope.

(** ** Exceptions and the generator state *)

Inductive exn : Type :=
  | ValueError
  | IndexError.

(** The primitive draws of numpy's legacy [RandomState]: a double in [0,1),
    an integer in the closed interval [0,max], and a standard normal
    deviate.  [init_by_seed] is what [np.random.seed] installs. *)
Record BitGenerator : Type := {
  rng : Type;
  init_by_seed : Z -> rng;
  next_double : rng -> R * rng;
  next_interval : Z -> rng -> Z * rng;
  next_gauss : rng -> R * rng;
  next_double_range : forall s, (0 <= fst (next_double s) < 1)%R;
  next_interval_range :
    forall max s, 0 <= max -> 0 <= fst (next_interval max s) <= max
}.

Section Numpy.

Context (G : BitGenerator).

(** A computation that reads and writes the global generator state and may
    raise. *)
Definition M (A : Type) : Type := rng G -> exn + (A * rng G).

Definition ret {A} (a : A) : M A := fun st => inr (a, st).

Definition raise {A} (e : exn) : M A := fun _ => inl e.

Definition bind {A B} (m : M A) (k : A -> M B) : M B :=
  fun st => match m st with
            | inl e => inl e
            | inr (a, st') => k a st'
            end.

Definition lift {A} (r : exn + A) : M A :=
  fun st => match r with
            | inl e => inl e
            | inr a => inr (a, st)
            end.

End Numpy.

Arguments ret {G A} a.
Arguments raise {G A} e.
Arguments bind {G A B} m k.
Arguments lift {G A} r.

Notation "x <~ m ;; k" := (bind m (fun x => k))
  (at level 100, m at next level, right associativity).
Notation "m ;;; k" := (bind m (fun _ => k))
  (at level 100, right associativity).

(** ** The numpy and pandas operations the generator calls

    These follow the documented behaviour of numpy's legacy
    [numpy.random] functions (module-level functions over the global
    [RandomState]), including the argument checks that raise
    [ValueError]. *)

#[global] Instance Rle_decision (x y : R) : Decision (x <= y)%R := Rle_dec x y.
#[global] Instance Rlt_decision (x y : R) : Decision (x < y)%R := Rlt_dec x y.

Section NumpyRandom.

Context {G : BitGenerator}.

(** [size] draws of one primitive, left to right. *)
Fixpoint iterate_draw {A} (prim : rng G -> A * rng G) (n : nat) (st : rng G)
  : list A * rng G :=
  match n with
  | O => ([], st)
  | S n' =>
      let (x, st1) := prim st in
      let (xs, st2) := iterate_draw prim n' st1 in
      (x :: xs, st2)
  end.

(** Allocating an output array of a negative length raises. *)
Definition sized {A} (size : Z) (prim : rng G -> A * rng G) : M G (list A) :=
  fun st => if size <? 0 then inl ValueError
            else inr (iterate_draw prim (Z.to_nat size) st).

(** [np.random.seed(seed)]: the seed must fit 32 unsigned bits. *)
Definition np_random_seed (seed : Z) : M G unit :=
  fun _ => if (0 <=? seed) && (seed <? 2 ^ 32)
           then inr (tt, init_by_seed G seed)
           else inl ValueError.

(** [random_sample(size)], also [np.random.rand(size)]. *)
Definition random_sample (size : Z) : M G (list R) :=
  sized size (next_double G).

Definition rand (size : Z) : M G (list R) := random_sample size.

Definition standard_normal (size : Z) : M G (list R) :=
  sized size (next_gauss G).

(** [np.random.randint(low, high, size)]: an empty request returns before
    the bounds are looked at. *)
Definition randint (low high size : Z) : M G (list Z) :=
  if size =? 0 then ret []
  else if high <=? low then raise ValueError
  else ks <~ sized size (next_interval G (high - low - 1)) ;;
       ret (map (fun k => low + k) ks).

(** [np.random.uniform(low, high, size)]: no check that [low <= high]. *)
Definition uniform (low high : R) (size : Z) : M G (list R) :=
  us <~ random_sample size ;;
  ret (map (fun u => low + (high - low) * u)%R us).

(** [np.random.normal(loc, scale, size)]: a negative scale raises. *)
Definition normal (loc scale : R) (size : Z) : M G (list R) :=
  if decide (scale < 0)%R then raise ValueError
  else zs <~ standard_normal size ;;
       ret (map (fun z => loc + scale * z)%R zs).

(** [a[i]] for one integer index; a negative index counts from the end. *)
Definition getitem {A} (a : list A) (i : Z) : exn + A :=
  let n := Z.of_nat (length a) in
  let j := if i <? 0 then i + n else i in
  if (0 <=? j) && (j <? n)
  then match a !! Z.to_nat j with
       | Some x => inr x
       | None => inl IndexError
       end
  else inl IndexError.

(** [a[idx]] for an index array. *)
Fixpoint take_indices {A} (a : list A) (idx : list Z) : exn + list A :=
  match idx with
  | [] => inr []
  | i :: idx' =>
      match getitem a i with
      | inl e => inl e
      | inr x =>
          match take_indices a idx' with
          | inl e => inl e
          | inr xs => inr (x :: xs)
          end
      end
  end.

(** [p.cumsum()]. *)
Fixpoint cumsum_from (acc : R) (p : list R) : list R :=
  match p with
  | [] => []
  | x :: p' => (acc + x)%R :: cumsum_from (acc + x)%R p'
  end.

Definition cumsum (p : list R) : list R := cumsum_from 0%R p.

(** [cdf.searchsorted(u, side='right')]: the number of entries [<= u] of a
    sorted array. *)
Definition searchsorted_right (cdf : list R) (u : R) : Z :=
  Z.of_nat (length (filter (fun c => (c <= u)%R) cdf)).

Definition sum_R (p : list R) : R := foldr Rplus 0%R p.

(** The tolerance of [choice] on the sum of [p]: the square root of the
    float64 machine epsilon, 2^-26. *)
Definition choice_atol : R := (/ 67108864)%R.

(** [np.random.choice(a, size)] without [p]: uniform indices from
    [randint]. *)
Definition choice (a : list string) (size : Z) : M G (list string) :=
  let pop_size := Z.of_nat (length a) in
  if (pop_size =? 0) && negb (size =? 0) then raise ValueError
  else idx <~ randint 0 pop_size size ;;
       lift (take_indices a idx).

(** [np.random.choice(a, size, p=p)]: inversion of the cumulative
    distribution at uniform samples. *)
Definition choice_p (a : list string) (size : Z) (p : list R)
  : M G (list string) :=
  let pop_size := Z.of_nat (length a) in
  if (pop_size =? 0) && negb (size =? 0) then raise ValueError
  else if negb (Z.of_nat (length p) =? pop_size) then raise ValueError
  else if bool_decide (Exists (fun x => (x < 0)%R) p) then raise ValueError
  else if decide (choice_atol < Rabs (sum_R p - 1))%R then raise ValueError
  else
    let cdf := cumsum p in
    let cdf := map (fun c => (c / List.last cdf 0)%R) cdf in
    uniform_samples <~ random_sample size ;;
    let idx := map (searchsorted_right cdf) uniform_samples in
    lift (take_indices a idx).

(** [l.index(x)]: the first position of [x]; [ValueError] when absent. *)
Fixpoint index (l : list string) (x : string) : exn + Z :=
  match l with
  | [] => inl ValueError
  | y :: l' =>
      if String.eqb y x then inr 0
      else match index l' x with
           | inl e => inl e
           | inr i => inr (1 + i)
           end
  end.

(** [series.apply(f)] for an [f] that may raise. *)
Fixpoint apply {A B} (f : A -> exn + B) (s : list A) : exn + list B :=
  match s with
  | [] => inr []
  | x :: s' =>
      match f x with
      | inl e => inl e
      | inr y =>
          match apply f s' with
          | inl e => inl e
          | inr ys => inr (y :: ys)
          end
      end
  end.

(** [np.where(cond, x, y)]. *)
Fixpoint np_where {A} (cond : list bool) (x y : list A) : list A :=
  match cond, x, y with
  | c :: cond', a :: x', b :: y' =>
      (if c then a else b) :: np_where cond' x' y'
  | _, _, _ => []
  end.

(** [range(lo, hi)]. *)
Definition range (lo hi : Z) : list Z := seqZ lo (hi - lo).

End NumpyRandom.

(** ** The population table *)

(** The [DataFrame] that [generate_synthetic_data] returns, column by
    column. *)
Record DataFrame : Type := {
  userid : list Z;
  country : list string;
  platform : list string;
  user_segment : list string;
  abgroup : list string;
  age : list Z;
  engagement_score : list R;
  country_idx : list Z;
  platform_idx : list Z;
  segment_idx : list Z;
  value : list R;
  pre_test_value : list R
}.

(** [len(df)]. *)
Definition len (df : DataFrame) : nat := length (userid df).

(** The local variables of [generate_synthetic_data] when it returns; the
    unnamed noise array of the [value] formula is [value_noise]. *)
Record Locals : Type := {
  base_value : list R;
  country_effect : list R;
  platform_effect : list R;
  segment_effect : list R;
  category_effect : list R;
  group_effect : list R;
  value_noise : list R;
  df : DataFrame
}.

(** Element-wise arithmetic on arrays, and broadcasting of a scalar. *)
Definition vadd : list R -> list R -> list R := zip_with Rplus.
Definition vmul : list R -> list R -> list R := zip_with Rmult.
Definition sadd (c : R) : list R -> list R := map (Rplus c).
Definition smul (c : R) : list R -> list R := map (Rmult c).

(** The two intervals handed to [np.random.uniform] inside [np.where]. *)
Definition treatment_range (base_increase_percentage : R) : R * R :=
  (-1 * base_increase_percentage, base_increase_percentage * 3)%R.

Definition control_range (base_increase_percentage : R) : R * R :=
  (-2 * base_increase_percentage, base_increase_percentage * 2)%R.

(** [countries.index(x) % k]. *)
Definition index_mod (vocabulary : list string) (k : Z) (x : string)
  : exn + Z :=
  match index vocabulary x with
  | inl e => inl e
  | inr i => inr (i mod k)
  end.

Section Generator.

Context {G : BitGenerator}.

Local Open Scope R_scope.

Definition generate_locals (num_users : Z)
    (countries platforms user_segments ab_groups : list string)
    (base_increase_percentage noise_level : R) (seed : Z) : M G Locals :=
  np_random_seed seed ;;;
  let userid := range 1 (num_users + 1) in
  country <~ choice countries num_users ;;
  platform <~ choice platforms num_users ;;
  user_segment <~ choice user_segments num_users ;;
  abgroup <~ choice_p ab_groups num_users [1 / 3; 1 / 3; 1 / 3] ;;
  age <~ randint 18 65 num_users ;;
  r <~ rand num_users ;;
  let engagement_score := map (fun x => x * 10) r in
  let base_value :=
    vadd (sadd 10 (map (fun a => IZR a / 10) age)) engagement_score in
  country_idx <~ lift (apply (index_mod countries 3) country) ;;
  platform_idx <~ lift (apply (index_mod platforms 2) platform) ;;
  segment_idx <~ lift (apply (index_mod user_segments 4) user_segment) ;;
  u1 <~ uniform (-1) 5 num_users ;;
  let country_effect := vmul u1 (map IZR country_idx) in
  u2 <~ uniform (-1) 5 num_users ;;
  let platform_effect := vmul u2 (map IZR platform_idx) in
  u3 <~ uniform (-1) 5 num_users ;;
  let segment_effect := vmul u3 (map IZR segment_idx) in
  let category_effect :=
    vadd (vadd country_effect platform_effect) segment_effect in
  let is_b := map (fun g => String.eqb g "b") abgroup in
  gt <~ uniform (fst (treatment_range base_increase_percentage))
                (snd (treatment_range base_increase_percentage)) num_users ;;
  gc <~ uniform (fst (control_range base_increase_percentage))
                (snd (control_range base_increase_percentage)) num_users ;;
  let group_effect := np_where is_b gt gc in
  value_noise <~ normal 0 noise_level num_users ;;
  let value :=
    vadd (vmul (vmul base_value (sadd 1 category_effect))
               (sadd 1 group_effect))
         value_noise in
  n1 <~ normal 1 (5 / 10) num_users ;;
  n2 <~ normal 0 (5 / 100) num_users ;;
  u4 <~ uniform (-1) 1 num_users ;;
  n3 <~ normal (-1) 1 num_users ;;
  let pre_test_value :=
    vadd (vadd (vmul (vmul base_value (sadd 1 (vmul n1 category_effect)))
                     (sadd 1 n2))
               (vmul (smul (5 / 10)
                           (map (fun e => sin (e / 2)) engagement_score))
                     u4))
         n3 in
  ret {| base_value := base_value;
         country_effect := country_effect;
         platform_effect := platform_effect;
         segment_effect := segment_effect;
         category_effect := category_effect;
         group_effect := group_effect;
         value_noise := value_noise;
         df := {| userid := userid;
                  country := country;
                  platform := platform;
                  user_segment := user_segment;
                  abgroup := abgroup;
                  age := age;
                  engagement_score := engagement_score;
                  country_idx := country_idx;
                  platform_idx := platform_idx;
                  segment_idx := segment_idx;
                  value := value;
                  pre_test_value := pre_test_value |} |}.

(** The function itself: it prints a description of [df] (not modelled) and
    returns [df]. *)
Definition generate_synthetic_data (num_users : Z)
    (countries platforms user_segments ab_groups : list string)
    (base_increase_percentage noise_level : R) (seed : Z) : M G DataFrame :=
  l <~ generate_locals num_users countries platforms user_segments ab_groups
         base_increase_percentage noise_level seed ;;
  ret (df l).

End Generator.

(** ** Timestamps *)

Record Timestamp : Type := { year : Z; month : Z; day : Z }.

Definition ts_ltb (a b : Timestamp) : bool :=
  (year a <? year b)
  || ((year a =? year b)
      && ((month a <? month b)
          || ((month a =? month b) && (day a <? day b)))).

Definition ts_lt (a b : Timestamp) : Prop := ts_ltb a b = true.

Definition digit_of (c : ascii) : option Z :=
  let n := Z.of_nat (nat_of_ascii c) in
  if (48 <=? n) && (n <=? 57) then Some (n - 48) else None.

Fixpoint parse_digits (acc : Z) (s : string) : option Z :=
  match s with
  | EmptyString => Some acc
  | String c s' =>
      match digit_of c with
      | Some d => parse_digits (10 * acc + d) s'
      | None => None
      end
  end.

Definition is_leap (y : Z) : bool :=
  ((y mod 4 =? 0) && negb (y mod 100 =? 0)) || (y mod 400 =? 0).

Definition days_in_month (y m : Z) : Z :=
  if m =? 2 then (if is_leap y then 29 else 28)
  else if (m =? 4) || (m =? 6) || (m =? 9) || (m =? 11) then 30
  else 31.

(** One ISO-8601 calendar date, [YYYY-MM-DD], the only format the
    projector hands to [pd.to_datetime]. *)
Definition parse_iso_date (s : string) : option Timestamp :=
  if (String.length s =? 10)%nat
     && bool_decide (String.get 4 s = Some "-"%char)
     && bool_decide (String.get 7 s = Some "-"%char)
  then
    match parse_digits 0 (String.substring 0 4 s),
          parse_digits 0 (String.substring 5 2 s),
          parse_digits 0 (String.substring 8 2 s) with
    | Some y, Some m, Some d =>
        if (1 <=? m) && (m <=? 12) && (1 <=? d) && (d <=? days_in_month y m)
        then Some {| year := y; month := m; day := d |}
        else None
    | _, _, _ => None
    end
  else None.

(** [pd.to_datetime] of a list of strings; a string that is not a date
    raises. *)
Definition to_datetime (l : list string) : exn + list Timestamp :=
  apply (fun s => match parse_iso_date s with
                  | Some t => inr t
                  | None => inl ValueError
                  end) l.

(** [pd.to_datetime] of a column that already holds timestamps. *)
Definition to_datetime_series (col : list Timestamp) : list Timestamp := col.

(** ** The projected tables *)

Record EventFrame : Type := {
  ev_timestamp : list Timestamp;
  ev_userid : list Z;
  event_name : list string;
  purchase_value : list R
}.

Record AllocationFrame : Type := {
  al_timestamp : list Timestamp;
  al_userid : list Z;
  al_abgroup : list string
}.

Record PropertiesFrame : Type := {
  pr_userid : list Z;
  pr_age : list Z;
  pr_country : list string;
  device_type : list string;
  membership_status : list string
}.

(** [pd.concat([a, b])]: the rows of [a], then the rows of [b]. *)
Definition concat (a b : EventFrame) : EventFrame :=
  {| ev_timestamp := ev_timestamp a ++ ev_timestamp b;
     ev_userid := ev_userid a ++ ev_userid b;
     event_name := event_name a ++ event_name b;
     purchase_value := purchase_value a ++ purchase_value b |}.

Definition set_timestamp (e : EventFrame) (col : list Timestamp)
  : EventFrame :=
  {| ev_timestamp := col;
     ev_userid := ev_userid e;
     event_name := event_name e;
     purchase_value := purchase_value e |}.

Definition ebind {A B} (m : exn + A) (k : A -> exn + B) : exn + B :=
  match m with
  | inl e => inl e
  | inr a => k a
  end.

Notation "x <- m ;; k" := (ebind m (fun x => k))
  (at level 100, m at next level, right associativity).

Definition create_dataframes (df : DataFrame)
  : exn + (EventFrame * AllocationFrame * PropertiesFrame) :=
  ts1 <- to_datetime (replicate (len df) "2022-12-10") ;;
  let event_data1 :=
    {| ev_timestamp := ts1;
       ev_userid := userid df;
       event_name := replicate (len df) "purchase";
       purchase_value := value df |} in
  ts2 <- to_datetime (replicate (len df) "2022-12-01") ;;
  let event_data2 :=
    {| ev_timestamp := ts2;
       ev_userid := userid df;
       event_name := replicate (len df) "purchase";
       purchase_value := pre_test_value df |} in
  ts3 <- to_datetime (replicate (len df) "2022-12-05") ;;
  let user_allocations :=
    {| al_timestamp := ts3;
       al_userid := userid df;
       al_abgroup := abgroup df |} in
  let user_properties :=
    {| pr_userid := userid df;
       pr_age := age df;
       pr_country := country df;
       device_type := platform df;
       membership_status := replicate (len df) "Free" |} in
  let event_data := concat event_data1 event_data2 in
  let event_data :=
    set_timestamp event_data (to_datetime_series (ev_timestamp event_data)) in
  inr (event_data, user_allocations, user_properties).

(** Row [i] of each table, as the tuple of its cells. *)
Definition event_row (e : EventFrame) (i : nat)
  : option (Timestamp * Z * string * R) :=
  match ev_timestamp e !! i, ev_userid e !! i,
        event_name e !! i, purchase_value e !! i with
  | Some t, Some u, Some n, Some v => Some (t, u, n, v)
  | _, _, _, _ => None
  end.

Definition allocation_row (a : AllocationFrame) (i : nat)
  : option (Timestamp * Z * string) :=
  match al_timestamp a !! i, al_userid a !! i, al_abgroup a !! i with
  | Some t, Some u, Some g => Some (t, u, g)
  | _, _, _ => None
  end.

(** How many rows of a [userid] column carry [u]. *)
Definition occurrences (u : Z) (col : list Z) : nat :=
  length (filter (fun x => x = u) col).

(** The three dates of the projector. *)
Definition day_pre : Timestamp := {| year := 2022; month := 12; day := 1 |}.
Definition day_alloc : Timestamp := {| year := 2022; month := 12; day := 5 |}.
Definition day_post : Timestamp := {| year := 2022; month := 12; day := 10 |}.

(** ** A concrete generator

    A Lehmer generator (modulus 2^31 - 1, multiplier 48271), enough to run
    the model on concrete inputs. *)

Definition lehmer_next (s : Z) : Z := (48271 * s) mod 2147483647.

Definition lehmer_double (s : Z) : R * Z :=
  (IZR (lehmer_next s mod 2147483647) / 2147483647, lehmer_next s)%R.

Definition lehmer_interval (max s : Z) : Z * Z :=
  (lehmer_next s mod (max + 1), lehmer_next s).

Definition lehmer_gauss (s : Z) : R * Z :=
  (IZR (lehmer_next s mod 2147483647) / 2147483647 - 1 / 2, lehmer_next s)%R.

(** ** The generator on accepted parameters

    Every array the generator takes from the random state, in the order it
    takes them ([consume]), and the table computed from those arrays
    ([assemble]).  [generate_locals_accepted] below shows that on accepted
    parameters the generator is exactly this composition. *)

Record Draws : Type := {
  k_country : list Z;
  k_platform : list Z;
  k_segment : list Z;
  u_abgroup : list R;
  k_age : list Z;
  u_engagement : list R;
  u_country : list R;
  u_platform : list R;
  u_segment : list R;
  u_treatment : list R;
  u_control : list R;
  z_value : list R;
  z_pre1 : list R;
  z_pre2 : list R;
  u_pre : list R;
  z_pre3 : list R
}.

(** [a[i]] made total (used only where the index is known to be valid). *)
Definition pick (a : list string) (i : Z) : string :=
  match getitem a i with
  | inr x => x
  | inl _ => ""
  end.

Definition bucket (vocabulary : list string) (k : Z) (x : string) : Z :=
  match index_mod vocabulary k x with
  | inr j => j
  | inl _ => 0
  end.

(** The cumulative distribution [choice] builds from [p = [1/3, 1/3, 1/3]]. *)
Definition cdf_thirds : list R :=
  let cdf := cumsum [1 / 3; 1 / 3; 1 / 3]%R in
  map (fun c => (c / List.last cdf 0)%R) cdf.

Definition scale_to (low high : R) (u : R) : R := (low + (high - low) * u)%R.

Section NormalForm.

Context {G : BitGenerator}.

Definition consume (n : nat) (n_countries n_platforms n_segments : Z)
    (st0 : rng G) : Draws * rng G :=
  let (kc, st1) := iterate_draw (next_interval G (n_countries - 0 - 1)) n st0 in
  let (kp, st2) := iterate_draw (next_interval G (n_platforms - 0 - 1)) n st1 in
  let (ks, st3) := iterate_draw (next_interval G (n_segments - 0 - 1)) n st2 in
  let (ua, st4) := iterate_draw (next_double G) n st3 in
  let (ka, st5) := iterate_draw (next_interval G (65 - 18 - 1)) n st4 in
  let (ue, st6) := iterate_draw (next_double G) n st5 in
  let (u1, st7) := iterate_draw (next_double G) n st6 in
  let (u2, st8) := iterate_draw (next_double G) n st7 in
  let (u3, st9) := iterate_draw (next_double G) n st8 in
  let (ut, st10) := iterate_draw (next_double G) n st9 in
  let (uc, st11) := iterate_draw (next_double G) n st10 in
  let (zv, st12) := iterate_draw (next_gauss G) n st11 in
  let (z1, st13) := iterate_draw (next_gauss G) n st12 in
  let (z2, st14) := iterate_draw (next_gauss G) n st13 in
  let (u4, st15) := iterate_draw (next_double G) n st14 in
  let (z3, st16) := iterate_draw (next_gauss G) n st15 in
  ({| k_country := kc; k_platform := kp; k_segment := ks; u_abgroup := ua;
      k_age := ka; u_engagement := ue; u_country := u1; u_platform := u2;
      u_segment := u3; u_treatment := ut; u_control := uc; z_value := zv;
      z_pre1 := z1; z_pre2 := z2; u_pre := u4; z_pre3 := z3 |}, st16).

End NormalForm.

Section Assemble.

Local Open Scope R_scope.

Variables (num_users : Z)
          (countries platforms user_segments ab_groups : list string)
          (base_increase_percentage noise_level : R).
Variable d : Draws.

Definition a_country := map (pick countries) (map (fun k => 0 + k)%Z (k_country d)).
Definition a_platform := map (pick platforms) (map (fun k => 0 + k)%Z (k_platform d)).
Definition a_user_segment :=
  map (pick user_segments) (map (fun k => 0 + k)%Z (k_segment d)).
Definition a_abgroup :=
  map (pick ab_groups) (map (searchsorted_right cdf_thirds) (u_abgroup d)).
Definition a_age := map (fun k => 18 + k)%Z (k_age d).
Definition a_engagement_score := map (fun x => x * 10) (u_engagement d).
Definition a_base_value :=
  vadd (sadd 10 (map (fun a => IZR a / 10) a_age)) a_engagement_score.
Definition a_country_idx := map (bucket countries 3) a_country.
Definition a_platform_idx := map (bucket platforms 2) a_platform.
Definition a_segment_idx := map (bucket user_segments 4) a_user_segment.
Definition a_country_effect :=
  vmul (map (scale_to (-1) 5) (u_country d)) (map IZR a_country_idx).
Definition a_platform_effect :=
  vmul (map (scale_to (-1) 5) (u_platform d)) (map IZR a_platform_idx).
Definition a_segment_effect :=
  vmul (map (scale_to (-1) 5) (u_segment d)) (map IZR a_segment_idx).
Definition a_category_effect :=
  vadd (vadd a_country_effect a_platform_effect) a_segment_effect.
Definition a_group_effect :=
  np_where (map (fun g => String.eqb g "b") a_abgroup)
    (map (scale_to (fst (treatment_range base_increase_percentage))
                   (snd (treatment_range base_increase_percentage)))
         (u_treatment d))
    (map (scale_to (fst (control_range base_increase_percentage))
                   (snd (control_range base_increase_percentage)))
         (u_control d)).
Definition a_value_noise := map (fun z => 0 + noise_level * z) (z_value d).
Definition a_value :=
  vadd (vmul (vmul a_base_value (sadd 1 a_category_effect))
             (sadd 1 a_group_effect))
       a_value_noise.
Definition a_pre_test_value :=
  vadd (vadd (vmul (vmul a_base_value
                         (sadd 1 (vmul (map (fun z => 1 + 5 / 10 * z) (z_pre1 d))
                                       a_category_effect)))
                   (sadd 1 (map (fun z => 0 + 5 / 100 * z) (z_pre2 d))))
             (vmul (smul (5 / 10)
                         (map (fun e => sin (e / 2)) a_engagement_score))
                   (map (scale_to (-1) 1) (u_pre d))))
       (map (fun z => -1 + 1 * z) (z_pre3 d)).

Definition assemble : Locals :=
  {| base_value := a_base_value;
     country_effect := a_country_effect;
     platform_effect := a_platform_effect;
     segment_effect := a_segment_effect;
     category_effect := a_category_effect;
     group_effect := a_group_effect;
     value_noise := a_value_noise;
     df := {| userid := range 1 (num_users + 1);
              country := a_country;
              platform := a_platform;
              user_segment := a_user_segment;
              abgroup := a_abgroup;
              age := a_age;
              engagement_score := a_engagement_score;
              country_idx := a_country_idx;
              platform_idx := a_platform_idx;
              segment_idx := a_segment_idx;
              value := a_value;
              pre_test_value := a_pre_test_value |} |}.

End Assemble.

(** The parameters on which the generator returns a table. *)
Definition accepted (num_users : Z)
    (countries platforms user_segments ab_groups : list string)
    (noise_level : R) (seed : Z) : Prop :=
  0 <= seed < 2 ^ 32
  /\ 0 <= num_users
  /\ (num_users = 0
      \/ (countries <> [] /\ platforms <> [] /\ user_segments <> []))
  /\ length ab_groups = 3%nat
  /\ (0 <= noise_level)%R.

(** A draw of [random_sample]. *)
Definition unit_interval (u : R) : Prop := (0 <= u < 1)%R.

(** The arrays of a [Draws] all have [n] entries, each within the range its
    primitive promises. *)
Record well_drawn (n : nat) (n_countries n_platforms n_segments : Z)
    (d : Draws) : Prop := {
  wd_k_country : length (k_country d) = n;
  wd_k_platform : length (k_platform d) = n;
  wd_k_segment : length (k_segment d) = n;
  wd_u_abgroup : length (u_abgroup d) = n;
  wd_k_age : length (k_age d) = n;
  wd_u_engagement : length (u_engagement d) = n;
  wd_u_country : length (u_country d) = n;
  wd_u_platform : length (u_platform d) = n;
  wd_u_segment : length (u_segment d) = n;
  wd_u_treatment : length (u_treatment d) = n;
  wd_u_control : length (u_control d) = n;
  wd_z_value : length (z_value d) = n;
  wd_z_pre1 : length (z_pre1 d) = n;
  wd_z_pre2 : length (z_pre2 d) = n;
  wd_u_pre : length (u_pre d) = n;
  wd_z_pre3 : length (z_pre3 d) = n;
  wd_country_range :
    0 < n_countries -> Forall (fun k => 0 <= k < n_countries) (k_country d);
  wd_platform_range :
    0 < n_platforms -> Forall (fun k => 0 <= k < n_platforms) (k_platform d);
  wd_segment_range :
    0 < n_segments -> Forall (fun k => 0 <= k < n_segments) (k_segment d);
  wd_abgroup_range : Forall unit_interval (u_abgroup d);
  wd_age_range : Forall (fun k => 0 <= k < 47) (k_age d);
  wd_engagement_range : Forall unit_interval (u_engagement d);
  wd_treatment_range : Forall unit_interval (u_treatment d);
  wd_control_range : Forall unit_interval (u_control d)
}.

(** The value at row [i] of every array [consume] produced. *)
Record row_draws (d : Draws) (i : nat)
    (kc kp ks : Z) (ua : R) (ka : Z) (ue u1 u2 u3 ut uc zv z1 z2 u4 z3 : R)
  : Prop := {
  rd_kc : k_country d !! i = Some kc;
  rd_kp : k_platform d !! i = Some kp;
  rd_ks : k_segment d !! i = Some ks;
  rd_ua : u_abgroup d !! i = Some ua;
  rd_ka : k_age d !! i = Some ka;
  rd_ue : u_engagement d !! i = Some ue;
  rd_u1 : u_country d !! i = Some u1;
  rd_u2 : u_platform d !! i = Some u2;
  rd_u3 : u_segment d !! i = Some u3;
  rd_ut : u_treatment d !! i = Some ut;
  rd_uc : u_control d !! i = Some uc;
  rd_zv : z_value d !! i = Some zv;
  rd_z1 : z_pre1 d !! i = Some z1;
  rd_z2 : z_pre2 d !! i = Some z2;
  rd_u4 : u_pre d !! i = Some u4;
  rd_z3 : z_pre3 d !! i = Some z3
}.

(** Width and centre of an interval [(low, high)]. *)
Definition range_width (r : R * R) : R := (snd r - fst r)%R.

Definition range_midpoint (r : R * R) : R := ((fst r + snd r) / 2)%R.

(** The closed form of one row of [base_value]. *)
Definition base_effect (age : Z) (engagement_score : R) : R :=
  (10 + IZR age / 10 + engagement_score)%R.

(** A two-user table for the projector. *)
Definition two_users : DataFrame :=
  {| userid := [1; 2];
     country := ["US"; "US"];
     platform := ["iOS"; "iOS"];
     user_segment := ["Segment_1"; "Segment_1"];
     abgroup := ["a1"; "b"];
     age := [30; 41];
     engagement_score := [2; 7]%R;
     country_idx := [0; 0];
     platform_idx := [0; 0];
     segment_idx := [0; 0];
     value := [15; 18]%R;
     pre_test_value := [14; 16]%R |}.

(** The generator [lehmer] keeps the promises of [BitGenerator]. *)

Lemma lehmer_next_range (s : Z) : 0 <= lehmer_next s < 2147483647.
Proof. unfold lehmer_next. apply Z.mod_pos_bound. lia. Qed.

Lemma lehmer_double_range (s : Z) : (0 <= fst (lehmer_double s) < 1)%R.
Proof.
  unfold lehmer_double. cbn [fst].
  pose proof (Z.mod_pos_bound (lehmer_next s) 2147483647 ltac:(lia)) as [Hlo Hhi].
  apply IZR_le in Hlo. apply IZR_lt in Hhi.
  split.
  - apply Rmult_le_pos; [exact Hlo | lra].
  - apply Rmult_lt_reg_r with 2147483647%R; [lra |].
    unfold Rdiv. rewrite Rmult_assoc, Rinv_l by lra. lra.
Qed.

Lemma lehmer_interval_range (max s : Z) :
  0 <= max -> 0 <= fst (lehmer_interval max s) <= max.
Proof.
  intros Hmax. unfold lehmer_interval. cbn [fst].
  pose proof (Z.mod_pos_bound (lehmer_next s) (max + 1) ltac:(lia)). lia.
Qed.

Definition lehmer : BitGenerator :=
  {| rng := Z;
     init_by_seed := fun seed => seed + 1;
     next_double := lehmer_double;
     next_interval := lehmer_interval;
     next_gauss := lehmer_gauss;
     next_double_range := lehmer_double_range;
     next_interval_range := lehmer_interval_range |}.

(** ** Running the monad *)

Section MonadLemmas.

Context {G : BitGenerator}.

Lemma bind_inr {A B} (m : M G A) (k : A -> M G B) st a st' :
  m st = inr (a, st') -> bind m k st = k a st'.
Proof. intros H. unfold bind. now rewrite H. Qed.

Lemma bind_inl {A B} (m : M G A) (k : A -> M G B) st e :
  m st = inl e -> bind m k st = inl e.
Proof. intros H. unfold bind. now rewrite H. Qed.

Lemma iterate_draw_length {A} (prim : rng G -> A * rng G) n st :
  length (fst (iterate_draw prim n st)) = n.
Proof.
  revert st. induction n as [| n IH]; intros st; cbn; [reflexivity |].
  destruct (prim st) as [x st1]. specialize (IH st1).
  destruct (iterate_draw prim n st1) as [xs st2]. cbn in *. now rewrite IH.
Qed.

Lemma iterate_draw_Forall {A} (prim : rng G -> A * rng G) (P : A -> Prop) n st :
  (forall s, P (fst (prim s))) -> Forall P (fst (iterate_draw prim n st)).
Proof.
  intros HP. revert st. induction n as [| n IH]; intros st; cbn.
  - constructor.
  - pose proof (HP st) as Hx. destruct (prim st) as [x st1]. specialize (IH st1).
    destruct (iterate_draw prim n st1) as [xs st2]. cbn in *.
    constructor; assumption.
Qed.

Lemma sized_run {A} (prim : rng G -> A * rng G) size st :
  0 <= size ->
  sized size prim st
  = inr (fst (iterate_draw prim (Z.to_nat size) st),
         snd (iterate_draw prim (Z.to_nat size) st)).
Proof.
  intros H. unfold sized. destruct (Z.ltb_spec size 0); [lia |].
  now destruct (iterate_draw prim (Z.to_nat size) st).
Qed.

Lemma sized_negative {A} (prim : rng G -> A * rng G) size st :
  size < 0 -> sized size prim st = inl ValueError.
Proof.
  intros H. unfold sized. destruct (Z.ltb_spec size 0); [reflexivity | lia].
Qed.

Lemma random_sample_run size st :
  0 <= size ->
  random_sample size st
  = inr (fst (iterate_draw (next_double G) (Z.to_nat size) st),
         snd (iterate_draw (next_double G) (Z.to_nat size) st)).
Proof. apply sized_run. Qed.

Lemma uniform_run low high size st :
  0 <= size ->
  uniform low high size st
  = inr (map (scale_to low high)
             (fst (iterate_draw (next_double G) (Z.to_nat size) st)),
         snd (iterate_draw (next_double G) (Z.to_nat size) st)).
Proof.
  intros H. unfold uniform.
  rewrite (bind_inr _ _ _ _ _ (random_sample_run size st H)).
  reflexivity.
Qed.

Lemma normal_run loc scale size st :
  (0 <= scale)%R -> 0 <= size ->
  normal loc scale size st
  = inr (map (fun z => loc + scale * z)%R
             (fst (iterate_draw (next_gauss G) (Z.to_nat size) st)),
         snd (iterate_draw (next_gauss G) (Z.to_nat size) st)).
Proof.
  intros Hs H. unfold normal.
  destruct (decide (scale < 0)%R) as [Hneg | _]; [lra |].
  unfold standard_normal.
  rewrite (bind_inr _ _ _ _ _ (sized_run _ size st H)).
  reflexivity.
Qed.

Lemma normal_negative_scale loc scale size (st : rng G) :
  (scale < 0)%R -> normal loc scale size st = inl ValueError.
Proof.
  intros Hs. unfold normal.
  destruct (decide (scale < 0)%R) as [_ | Hn]; [reflexivity | contradiction].
Qed.

Lemma randint_run low high size st :
  0 <= size -> size = 0 \/ low < high ->
  randint low high size st
  = inr (map (fun k => low + k)
             (fst (iterate_draw (next_interval G (high - low - 1))
                     (Z.to_nat size) st)),
         snd (iterate_draw (next_interval G (high - low - 1))
                (Z.to_nat size) st)).
Proof.
  intros H Hor. unfold randint.
  destruct (Z.eqb_spec size 0) as [-> | Hnz]; [reflexivity |].
  destruct (Z.leb_spec high low); [lia |].
  rewrite (bind_inr _ _ _ _ _ (sized_run _ size st H)).
  reflexivity.
Qed.

Lemma randint_negative low high size (st : rng G) :
  size < 0 -> randint low high size st = inl ValueError.
Proof.
  intros H. unfold randint.
  destruct (Z.eqb_spec size 0); [lia |].
  destruct (Z.leb_spec high low); [reflexivity |].
  apply bind_inl, sized_negative, H.
Qed.

End MonadLemmas.

(** ** Indexing, [list.index] and [Series.apply] *)

Lemma getitem_in_range {A} (a : list A) (i : Z) :
  0 <= i < Z.of_nat (length a) ->
  exists x, getitem a i = inr x /\ a !! Z.to_nat i = Some x.
Proof.
  intros Hi. unfold getitem.
  destruct (Z.ltb_spec i 0); [lia |].
  destruct (Z.leb_spec 0 i); [| lia].
  destruct (Z.ltb_spec i (Z.of_nat (length a))); [| lia].
  cbn [andb].
  destruct (a !! Z.to_nat i) as [x |] eqn:Hx.
  - exists x. split; reflexivity.
  - apply lookup_ge_None in Hx. lia.
Qed.

Lemma pick_in_range (a : list string) (i : Z) :
  0 <= i < Z.of_nat (length a) ->
  getitem a i = inr (pick a i) /\ a !! Z.to_nat i = Some (pick a i).
Proof.
  intros Hi. destruct (getitem_in_range a i Hi) as (x & Hg & Hl).
  unfold pick. rewrite Hg. split; [reflexivity | assumption].
Qed.

Lemma pick_elem_of (a : list string) (i : Z) :
  0 <= i < Z.of_nat (length a) -> pick a i ∈ a.
Proof.
  intros Hi. destruct (pick_in_range a i Hi) as [_ Hl].
  eapply list_elem_of_lookup_2, Hl.
Qed.

Lemma take_indices_in_range (a : list string) (idx : list Z) :
  Forall (fun i => 0 <= i < Z.of_nat (length a)) idx ->
  take_indices a idx = inr (map (pick a) idx).
Proof.
  induction 1 as [| i idx Hi _ IH]; cbn; [reflexivity |].
  destruct (pick_in_range a i Hi) as [-> _]. now rewrite IH.
Qed.

Lemma index_found (l : list string) (x : string) :
  x ∈ l ->
  exists j, index l x = inr j /\ 0 <= j < Z.of_nat (length l)
            /\ l !! Z.to_nat j = Some x.
Proof.
  induction l as [| y l IH]; intros Hin.
  - inversion Hin.
  - cbn [index]. destruct (String.eqb_spec y x) as [-> | Hne].
    + exists 0. cbn. split; [reflexivity |]. split; [lia | reflexivity].
    + apply elem_of_cons in Hin as [-> | Hin]; [congruence |].
      destruct (IH Hin) as (j & -> & Hj & Hl).
      exists (1 + j). split; [reflexivity |]. split; [cbn [length]; lia |].
      replace (Z.to_nat (1 + j)) with (S (Z.to_nat j)) by lia. exact Hl.
Qed.

Lemma index_mod_found (l : list string) (k : Z) (x : string) :
  x ∈ l -> index_mod l k x = inr (bucket l k x).
Proof.
  intros Hin. unfold bucket, index_mod.
  destruct (index_found l x Hin) as (j & -> & _). reflexivity.
Qed.

Lemma bucket_index (l : list string) (k : Z) (x : string) :
  x ∈ l -> exists j, index l x = inr j /\ bucket l k x = j mod k.
Proof.
  intros Hin. unfold bucket, index_mod.
  destruct (index_found l x Hin) as (j & -> & _). now exists j.
Qed.

Lemma apply_index_mod (l : list string) (k : Z) (s : list string) :
  Forall (fun x => x ∈ l) s ->
  apply (index_mod l k) s = inr (map (bucket l k) s).
Proof.
  induction 1 as [| x s Hx _ IH]; cbn; [reflexivity |].
  rewrite (index_mod_found l k x Hx), IH. reflexivity.
Qed.

(** ** The cumulative distribution of three equal probabilities *)

Lemma cdf_thirds_eq :
  cdf_thirds = [(0 + 1 / 3) / (0 + 1 / 3 + 1 / 3 + 1 / 3);
                (0 + 1 / 3 + 1 / 3) / (0 + 1 / 3 + 1 / 3 + 1 / 3);
                (0 + 1 / 3 + 1 / 3 + 1 / 3) / (0 + 1 / 3 + 1 / 3 + 1 / 3)]%R.
Proof. reflexivity. Qed.

Lemma searchsorted_thirds_range (u : R) :
  (0 <= u < 1)%R -> 0 <= searchsorted_right cdf_thirds u < 3.
Proof.
  intros Hu. unfold searchsorted_right. rewrite cdf_thirds_eq.
  rewrite !filter_cons, filter_nil.
  assert (Hlast : ((0 + 1 / 3 + 1 / 3 + 1 / 3) / (0 + 1 / 3 + 1 / 3 + 1 / 3)
                   = 1)%R) by lra.
  rewrite Hlast.
  destruct (decide (1 <= u)%R) as [Hle | _]; [lra |].
  repeat destruct (decide _); cbn [length]; lia.
Qed.

Lemma thirds_valid :
  bool_decide (Exists (fun x => (x < 0)%R) [1 / 3; 1 / 3; 1 / 3]%R) = false
  /\ ~ (choice_atol < Rabs (sum_R [1 / 3; 1 / 3; 1 / 3] - 1))%R.
Proof.
  split.
  - apply bool_decide_eq_false. rewrite !Exists_cons, Exists_nil. lra.
  - unfold sum_R, choice_atol. cbn [foldr].
    replace (1 / 3 + (1 / 3 + (1 / 3 + 0)) - 1)%R with 0%R by lra.
    rewrite Rabs_R0. lra.
Qed.

(** ** [choice] on accepted arguments *)

Section ChoiceLemmas.

Context {G : BitGenerator}.

Lemma interval_draws_in_range (pop_size : Z) n (st : rng G) :
  n = O \/ 0 < pop_size ->
  Forall (fun i => 0 <= i < pop_size)
    (map (fun k => 0 + k)
       (fst (iterate_draw (next_interval G (pop_size - 0 - 1)) n st))).
Proof.
  intros [-> | Hpos]; [constructor |].
  apply Forall_map.
  apply iterate_draw_Forall. intros s. cbn beta.
  pose proof (next_interval_range G (pop_size - 0 - 1) s ltac:(lia)). lia.
Qed.

Lemma choice_run (a : list string) size (st : rng G) :
  0 <= size -> size = 0 \/ a <> [] ->
  choice a size st
  = inr (map (pick a)
           (map (fun k => 0 + k)
              (fst (iterate_draw
                      (next_interval G (Z.of_nat (length a) - 0 - 1))
                      (Z.to_nat size) st))),
         snd (iterate_draw (next_interval G (Z.of_nat (length a) - 0 - 1))
                (Z.to_nat size) st)).
Proof.
  intros Hsize Hor. unfold choice.
  assert (Hpop : size = 0 \/ 0 < Z.of_nat (length a)).
  { destruct Hor as [-> | Hne]; [now left | right].
    destruct a; [congruence | cbn [length]; lia]. }
  destruct ((Z.of_nat (length a) =? 0) && negb (size =? 0)) eqn:Hguard.
  { apply andb_true_iff in Hguard as [H1 H2].
    apply Z.eqb_eq in H1. apply negb_true_iff, Z.eqb_neq in H2. lia. }
  rewrite (bind_inr _ _ _ _ _ (randint_run 0 _ size st Hsize Hpop)).
  unfold lift. rewrite take_indices_in_range; [reflexivity |].
  apply interval_draws_in_range. lia.
Qed.

Lemma choice_empty (size : Z) (st : rng G) :
  size <> 0 -> choice [] size st = inl ValueError.
Proof.
  intros Hnz. unfold choice. cbn [length Z.of_nat Z.eqb andb].
  destruct (Z.eqb_spec size 0); [contradiction | reflexivity].
Qed.

Lemma choice_negative (a : list string) size (st : rng G) :
  size < 0 -> choice a size st = inl ValueError.
Proof.
  intros Hneg. unfold choice.
  destruct ((Z.of_nat (length a) =? 0) && negb (size =? 0)); [reflexivity |].
  apply bind_inl, randint_negative, Hneg.
Qed.

Lemma choice_p_run (a : list string) size (st : rng G) :
  0 <= size -> length a = 3%nat ->
  choice_p a size [1 / 3; 1 / 3; 1 / 3]%R st
  = inr (map (pick a)
           (map (searchsorted_right cdf_thirds)
              (fst (iterate_draw (next_double G) (Z.to_nat size) st))),
         snd (iterate_draw (next_double G) (Z.to_nat size) st)).
Proof.
  intros Hsize Hlen. unfold choice_p. rewrite Hlen.
  cbn [Z.of_nat Pos.of_succ_nat Pos.succ Z.eqb Pos.eqb andb negb length].
  destruct thirds_valid as [-> Hsum].
  destruct (decide _) as [Hbad | _]; [contradiction |].
  change ((Z.of_nat 3 =? 0) && negb (size =? 0)) with false.
  change (negb (Z.of_nat 3 =? Z.of_nat 3)) with false. cbv iota.
  rewrite (bind_inr _ _ _ _ _ (random_sample_run size st Hsize)).
  unfold lift. fold cdf_thirds.
  rewrite take_indices_in_range; [reflexivity |].
  apply Forall_map. rewrite Hlen.
  apply iterate_draw_Forall. intros s. cbn beta.
  pose proof (searchsorted_thirds_range _ (next_double_range G s)). lia.
Qed.

Lemma choice_p_wrong_length (a : list string) size (p : list R) (st : rng G) :
  length p <> length a -> choice_p a size p st = inl ValueError.
Proof.
  intros Hne. unfold choice_p.
  destruct ((Z.of_nat (length a) =? 0) && negb (size =? 0)); [reflexivity |].
  destruct (Z.eqb_spec (Z.of_nat (length p)) (Z.of_nat (length a)));
    [lia | reflexivity].
Qed.

Lemma np_random_seed_run (seed : Z) (st : rng G) :
  0 <= seed < 2 ^ 32 -> np_random_seed seed st = inr (tt, init_by_seed G seed).
Proof.
  intros H. unfold np_random_seed.
  destruct (Z.leb_spec 0 seed); [| lia].
  destruct (Z.ltb_spec seed (2 ^ 32)); [reflexivity | lia].
Qed.

Lemma np_random_seed_out_of_range (seed : Z) (st : rng G) :
  ~ 0 <= seed < 2 ^ 32 -> np_random_seed seed st = inl ValueError.
Proof.
  intros H. unfold np_random_seed.
  destruct (Z.leb_spec 0 seed); [| reflexivity].
  destruct (Z.ltb_spec seed (2 ^ 32)); [lia | reflexivity].
Qed.

End ChoiceLemmas.

(** ** The generator is [assemble] after [consume] *)

Section Accepted.

Context {G : BitGenerator}.

Lemma lift_run {A} (r : exn + A) (a : A) (st : rng G) :
  r = inr a -> lift r st = inr (a, st).
Proof. intros ->. reflexivity. Qed.

Lemma picked_elem_of (a : list string) (idx : list Z) :
  Forall (fun i => 0 <= i < Z.of_nat (length a)) idx ->
  Forall (fun x => x ∈ a) (map (pick a) idx).
Proof.
  intros H. apply Forall_map. eapply Forall_impl; [exact H |].
  intros i Hi. now apply pick_elem_of.
Qed.

Lemma choice_draws_elem_of (a : list string) n (st : rng G) :
  n = O \/ a <> [] ->
  Forall (fun x => x ∈ a)
    (map (pick a)
       (map (fun k => 0 + k)
          (fst (iterate_draw (next_interval G (Z.of_nat (length a) - 0 - 1))
                  n st)))).
Proof.
  intros Hor. apply picked_elem_of, interval_draws_in_range.
  destruct Hor as [-> | Hne]; [now left | right].
  destruct a; [congruence | cbn [length]; lia].
Qed.

Lemma choice_draws_named (a : list string) n (st : rng G) l r :
  n = O \/ a <> [] ->
  iterate_draw (next_interval G (Z.of_nat (length a) - 0 - 1)) n st = (l, r) ->
  Forall (fun x => x ∈ a) (map (pick a) (map (fun k => 0 + k) l)).
Proof.
  intros Hor E. pose proof (choice_draws_elem_of a n st Hor) as H.
  now rewrite E in H.
Qed.

Tactic Notation "name_draws" ident(l) ident(r) ident(E) :=
  match goal with
  | |- context [iterate_draw ?p ?n ?s] =>
      destruct (iterate_draw p n s) as [l r] eqn:E; cbn [fst snd]
  end.

Tactic Notation "step" open_constr(H) :=
  rewrite (bind_inr _ _ _ _ _ H); cbv beta.

Lemma generate_locals_accepted num_users countries platforms user_segments
    ab_groups base_increase_percentage noise_level seed (st : rng G) :
  accepted num_users countries platforms user_segments ab_groups
    noise_level seed ->
  generate_locals num_users countries platforms user_segments ab_groups
    base_increase_percentage noise_level seed st
  = inr (assemble num_users countries platforms user_segments ab_groups
           base_increase_percentage noise_level
           (fst (consume (Z.to_nat num_users)
                   (Z.of_nat (length countries))
                   (Z.of_nat (length platforms))
                   (Z.of_nat (length user_segments))
                   (init_by_seed G seed))),
         snd (consume (Z.to_nat num_users)
                (Z.of_nat (length countries))
                (Z.of_nat (length platforms))
                (Z.of_nat (length user_segments))
                (init_by_seed G seed))).
Proof.
  intros (Hseed & Hn & Hvoc & Hab & Hnoise).
  assert (Hc : num_users = 0 \/ countries <> []) by tauto.
  assert (Hp : num_users = 0 \/ platforms <> []) by tauto.
  assert (Hs : num_users = 0 \/ user_segments <> []) by tauto.
  assert (Hc' : Z.to_nat num_users = O \/ countries <> [])
    by (destruct Hc; [left; lia | now right]).
  assert (Hp' : Z.to_nat num_users = O \/ platforms <> [])
    by (destruct Hp; [left; lia | now right]).
  assert (Hs' : Z.to_nat num_users = O \/ user_segments <> [])
    by (destruct Hs; [left; lia | now right]).
  unfold generate_locals, consume.
  step (np_random_seed_run seed st Hseed).
  step (choice_run countries num_users (init_by_seed G seed) Hn Hc).
  name_draws kc st1 E1.
  pose proof (choice_draws_named _ _ _ _ _ Hc' E1) as Hin1.
  step (choice_run platforms num_users st1 Hn Hp).
  name_draws kp st2 E2.
  pose proof (choice_draws_named _ _ _ _ _ Hp' E2) as Hin2.
  step (choice_run user_segments num_users st2 Hn Hs).
  name_draws ks st3 E3.
  pose proof (choice_draws_named _ _ _ _ _ Hs' E3) as Hin3.
  step (choice_p_run ab_groups num_users st3 Hn Hab).
  name_draws ua st4 E4.
  step (randint_run 18 65 num_users st4 Hn (or_intror eq_refl)).
  name_draws ka st5 E5.
  unfold rand.
  step (random_sample_run num_users st5 Hn).
  name_draws ue st6 E6.
  step (lift_run _ _ st6 (apply_index_mod countries 3 _ Hin1)).
  step (lift_run _ _ st6 (apply_index_mod platforms 2 _ Hin2)).
  step (lift_run _ _ st6 (apply_index_mod user_segments 4 _ Hin3)).
  step (uniform_run (-1) 5 num_users st6 Hn).
  name_draws u1 st7 E7.
  step (uniform_run (-1) 5 num_users st7 Hn).
  name_draws u2 st8 E8.
  step (uniform_run (-1) 5 num_users st8 Hn).
  name_draws u3 st9 E9.
  step (uniform_run (fst (treatment_range base_increase_percentage))
          (snd (treatment_range base_increase_percentage)) num_users st9 Hn).
  name_draws ut st10 E10.
  step (uniform_run (fst (control_range base_increase_percentage))
          (snd (control_range base_increase_percentage)) num_users st10 Hn).
  name_draws uc st11 E11.
  step (normal_run 0 noise_level num_users st11 Hnoise Hn).
  name_draws zv st12 E12.
  step (normal_run 1 (5 / 10) num_users st12 ltac:(lra) Hn).
  name_draws z1 st13 E13.
  step (normal_run 0 (5 / 100) num_users st13 ltac:(lra) Hn).
  name_draws z2 st14 E14.
  step (uniform_run (-1) 1 num_users st14 Hn).
  name_draws u4 st15 E15.
  step (normal_run (-1) 1 num_users st15 ltac:(lra) Hn).
  name_draws z3 st16 E16.
  reflexivity.
Qed.

Lemma generate_locals_rejected num_users countries platforms user_segments
    ab_groups base_increase_percentage noise_level seed (st : rng G) :
  ~ accepted num_users countries platforms user_segments ab_groups
      noise_level seed ->
  generate_locals num_users countries platforms user_segments ab_groups
    base_increase_percentage noise_level seed st
  = inl ValueError.
Proof.
  intros Hrej. unfold generate_locals.
  destruct (decide (0 <= seed < 2 ^ 32)) as [Hseed | Hseed];
    [| apply bind_inl, np_random_seed_out_of_range, Hseed].
  step (np_random_seed_run seed st Hseed).
  destruct (Z.lt_ge_cases num_users 0) as [Hneg | Hn];
    [apply bind_inl, choice_negative, Hneg |].
  destruct (decide (num_users = 0 \/ countries <> [])) as [Hc | Hc].
  2:{ assert (countries = []) as -> by (destruct countries; tauto).
      apply bind_inl, choice_empty. tauto. }
  step (choice_run countries num_users (init_by_seed G seed) Hn Hc).
  destruct (decide (num_users = 0 \/ platforms <> [])) as [Hp | Hp].
  2:{ assert (platforms = []) as -> by (destruct platforms; tauto).
      apply bind_inl, choice_empty. tauto. }
  step (choice_run platforms num_users _ Hn Hp).
  destruct (decide (num_users = 0 \/ user_segments <> [])) as [Hs | Hs].
  2:{ assert (user_segments = []) as -> by (destruct user_segments; tauto).
      apply bind_inl, choice_empty. tauto. }
  step (choice_run user_segments num_users _ Hn Hs).
  destruct (decide (length ab_groups = 3%nat)) as [Hab | Hab].
  2:{ apply bind_inl, choice_p_wrong_length. cbn [length]. congruence. }
  step (choice_p_run ab_groups num_users _ Hn Hab).
  step (randint_run 18 65 num_users _ Hn (or_intror eq_refl)).
  unfold rand.
  step (random_sample_run num_users _ Hn).
  assert (Hc' : Z.to_nat num_users = O \/ countries <> [])
    by (destruct Hc; [left; lia | now right]).
  assert (Hp' : Z.to_nat num_users = O \/ platforms <> [])
    by (destruct Hp; [left; lia | now right]).
  assert (Hs' : Z.to_nat num_users = O \/ user_segments <> [])
    by (destruct Hs; [left; lia | now right]).
  step (lift_run _ _ _ (apply_index_mod countries 3 _
                          (choice_draws_elem_of countries _ _ Hc'))).
  step (lift_run _ _ _ (apply_index_mod platforms 2 _
                          (choice_draws_elem_of platforms _ _ Hp'))).
  step (lift_run _ _ _ (apply_index_mod user_segments 4 _
                          (choice_draws_elem_of user_segments _ _ Hs'))).
  step (uniform_run (-1) 5 num_users _ Hn).
  step (uniform_run (-1) 5 num_users _ Hn).
  step (uniform_run (-1) 5 num_users _ Hn).
  step (uniform_run (fst (treatment_range base_increase_percentage))
          (snd (treatment_range base_increase_percentage)) num_users _ Hn).
  step (uniform_run (fst (control_range base_increase_percentage))
          (snd (control_range base_increase_percentage)) num_users _ Hn).
  apply bind_inl, normal_negative_scale.
  destruct (Rlt_dec noise_level 0) as [Hlt | Hge]; [exact Hlt |].
  exfalso. apply Hrej. unfold accepted.
  repeat split; try lia; try lra.
  destruct Hc as [-> | Hc]; [now left |].
  destruct Hp as [Hp | Hp]; [now left |].
  destruct Hs as [Hs | Hs]; [now left |]. right. tauto.
Qed.

End Accepted.

(** ** What [consume] draws *)

Section ConsumeLemmas.

Context {G : BitGenerator}.

Lemma iterate_draw_named {A} (prim : rng G -> A * rng G) n st xs st' :
  iterate_draw prim n st = (xs, st') ->
  length xs = n
  /\ forall P : A -> Prop, (forall s, P (fst (prim s))) -> Forall P xs.
Proof.
  intros E. split.
  - pose proof (iterate_draw_length prim n st) as H. now rewrite E in H.
  - intros P HP. pose proof (iterate_draw_Forall prim P n st HP) as H.
    now rewrite E in H.
Qed.

Lemma interval_named max n (st : rng G) xs st' :
  iterate_draw (next_interval G (max - 0 - 1)) n st = (xs, st') ->
  0 < max -> Forall (fun k => 0 <= k < max) xs.
Proof.
  intros E Hmax. apply (iterate_draw_named _ _ _ _ _ E). intros s.
  pose proof (next_interval_range G (max - 0 - 1) s ltac:(lia)). lia.
Qed.

Lemma consume_well_drawn n nc np ns (st : rng G) :
  well_drawn n nc np ns (fst (consume n nc np ns st)).
Proof.
  unfold consume.
  repeat match goal with
         | |- context [iterate_draw ?p ?k ?s] =>
             let E := fresh "E" in
             destruct (iterate_draw p k s) as [? ?] eqn:E;
             pose proof (proj1 (iterate_draw_named _ _ _ _ _ E));
             pose proof (proj2 (iterate_draw_named _ _ _ _ _ E))
         end.
  cbn [fst].
  constructor; cbn; try assumption;
    try (eapply interval_named; eassumption);
    try (match goal with
         | H : forall P : R -> Prop, _ |- Forall unit_interval ?l =>
             solve [apply H; intros s; apply next_double_range]
         end).
  match goal with
  | E : iterate_draw (next_interval G (65 - 18 - 1)) _ _ = (?l, _)
    |- Forall _ ?l =>
      apply (iterate_draw_named _ _ _ _ _ E); intros s;
      pose proof (next_interval_range G (65 - 18 - 1) s ltac:(lia)); lia
  end.
Qed.

End ConsumeLemmas.

(** ** Rows of the assembled table *)

Lemma lookup_map {A B} (f : A -> B) (l : list A) (i : nat) :
  map f l !! i = f <$> (l !! i).
Proof.
  revert i. induction l as [| x l IH]; intros [| i]; cbn; try reflexivity.
  apply IH.
Qed.

Lemma lookup_np_where {A} (c : list bool) (x y : list A) (i : nat) :
  np_where c x y !! i
  = match (c !! i : option bool), (x !! i : option A), (y !! i : option A) with
    | Some b, Some a, Some a' => Some (if b then a else a')
    | _, _, _ => None
    end.
Proof.
  revert x y i. induction c as [| b c IH]; intros x y i.
  - cbn [np_where]. now rewrite !lookup_nil.
  - destruct x as [| a x].
    { cbn [np_where]. rewrite !lookup_nil. now destruct ((b :: c) !! i). }
    destruct y as [| a' y].
    { cbn [np_where]. rewrite !lookup_nil.
      now destruct ((b :: c) !! i), ((a :: x) !! i). }
    destruct i as [| i]; cbn; [reflexivity | apply IH].
Qed.

Lemma length_np_where {A} (c : list bool) (x y : list A) n :
  length c = n -> length x = n -> length y = n ->
  length (np_where c x y) = n.
Proof.
  revert x y n. induction c as [| b c IH]; intros x y n Hc Hx Hy.
  - cbn in *. congruence.
  - destruct x as [| a x]; [cbn in *; congruence |].
    destruct y as [| a' y]; [cbn in *; congruence |].
    cbn in *. destruct n; [discriminate |]. f_equal. apply IH; congruence.
Qed.

Create Rewrite HintDb rows.
#[local] Hint Rewrite @lookup_zip_with @lookup_map @lookup_np_where : rows.

Lemma well_drawn_row n nc np ns d i :
  well_drawn n nc np ns d -> (i < n)%nat ->
  exists kc kp ks ua ka ue u1 u2 u3 ut uc zv z1 z2 u4 z3,
    row_draws d i kc kp ks ua ka ue u1 u2 u3 ut uc zv z1 z2 u4 z3
    /\ (0 < nc -> 0 <= kc < nc)
    /\ (0 < np -> 0 <= kp < np)
    /\ (0 < ns -> 0 <= ks < ns)
    /\ unit_interval ua /\ 0 <= ka < 47 /\ unit_interval ue
    /\ unit_interval ut /\ unit_interval uc.
Proof.
  intros W Hi.
  destruct (lookup_lt_is_Some_2 (k_country d) i) as [kc Hkc];
    [rewrite (wd_k_country _ _ _ _ _ W); exact Hi |].
  destruct (lookup_lt_is_Some_2 (k_platform d) i) as [kp Hkp];
    [rewrite (wd_k_platform _ _ _ _ _ W); exact Hi |].
  destruct (lookup_lt_is_Some_2 (k_segment d) i) as [ks Hks];
    [rewrite (wd_k_segment _ _ _ _ _ W); exact Hi |].
  destruct (lookup_lt_is_Some_2 (u_abgroup d) i) as [ua Hua];
    [rewrite (wd_u_abgroup _ _ _ _ _ W); exact Hi |].
  destruct (lookup_lt_is_Some_2 (k_age d) i) as [ka Hka];
    [rewrite (wd_k_age _ _ _ _ _ W); exact Hi |].
  destruct (lookup_lt_is_Some_2 (u_engagement d) i) as [ue Hue];
    [rewrite (wd_u_engagement _ _ _ _ _ W); exact Hi |].
  destruct (lookup_lt_is_Some_2 (u_country d) i) as [u1 Hu1];
    [rewrite (wd_u_country _ _ _ _ _ W); exact Hi |].
  destruct (lookup_lt_is_Some_2 (u_platform d) i) as [u2 Hu2];
    [rewrite (wd_u_platform _ _ _ _ _ W); exact Hi |].
  destruct (lookup_lt_is_Some_2 (u_segment d) i) as [u3 Hu3];
    [rewrite (wd_u_segment _ _ _ _ _ W); exact Hi |].
  destruct (lookup_lt_is_Some_2 (u_treatment d) i) as [ut Hut];
    [rewrite (wd_u_treatment _ _ _ _ _ W); exact Hi |].
  destruct (lookup_lt_is_Some_2 (u_control d) i) as [uc Huc];
    [rewrite (wd_u_control _ _ _ _ _ W); exact Hi |].
  destruct (lookup_lt_is_Some_2 (z_value d) i) as [zv Hzv];
    [rewrite (wd_z_value _ _ _ _ _ W); exact Hi |].
  destruct (lookup_lt_is_Some_2 (z_pre1 d) i) as [z1 Hz1];
    [rewrite (wd_z_pre1 _ _ _ _ _ W); exact Hi |].
  destruct (lookup_lt_is_Some_2 (z_pre2 d) i) as [z2 Hz2];
    [rewrite (wd_z_pre2 _ _ _ _ _ W); exact Hi |].
  destruct (lookup_lt_is_Some_2 (u_pre d) i) as [u4 Hu4];
    [rewrite (wd_u_pre _ _ _ _ _ W); exact Hi |].
  destruct (lookup_lt_is_Some_2 (z_pre3 d) i) as [z3 Hz3];
    [rewrite (wd_z_pre3 _ _ _ _ _ W); exact Hi |].
  exists kc, kp, ks, ua, ka, ue, u1, u2, u3, ut, uc, zv, z1, z2, u4, z3.
  split; [constructor; assumption |].
  refine (conj _ (conj _ (conj _ (conj _ (conj _ (conj _ (conj _ _))))))).
  - intros Hpos.
    exact (Forall_lookup_1 _ _ _ _ (wd_country_range _ _ _ _ _ W Hpos) Hkc).
  - intros Hpos.
    exact (Forall_lookup_1 _ _ _ _ (wd_platform_range _ _ _ _ _ W Hpos) Hkp).
  - intros Hpos.
    exact (Forall_lookup_1 _ _ _ _ (wd_segment_range _ _ _ _ _ W Hpos) Hks).
  - exact (Forall_lookup_1 _ _ _ _ (wd_abgroup_range _ _ _ _ _ W) Hua).
  - exact (Forall_lookup_1 _ _ _ _ (wd_age_range _ _ _ _ _ W) Hka).
  - exact (Forall_lookup_1 _ _ _ _ (wd_engagement_range _ _ _ _ _ W) Hue).
  - exact (Forall_lookup_1 _ _ _ _ (wd_treatment_range _ _ _ _ _ W) Hut).
  - exact (Forall_lookup_1 _ _ _ _ (wd_control_range _ _ _ _ _ W) Huc).
Qed.

Lemma scale_to_bounds (low high u : R) :
  (low <= high)%R -> unit_interval u ->
  (low <= scale_to low high u <= high)%R
  /\ ((low < high)%R -> (scale_to low high u < high)%R).
Proof. unfold unit_interval, scale_to. intros Hr [H0 H1]. split; [nra |]. nra. Qed.

Lemma accepted_populated num_users countries platforms user_segments
    ab_groups noise_level seed (i : nat) :
  accepted num_users countries platforms user_segments ab_groups
    noise_level seed ->
  (i < Z.to_nat num_users)%nat ->
  0 < Z.of_nat (length countries) /\ 0 < Z.of_nat (length platforms)
  /\ 0 < Z.of_nat (length user_segments).
Proof.
  intros (_ & _ & [Hz | (Hc & Hp & Hs)] & _) Hi; [lia |].
  destruct countries, platforms, user_segments; try congruence.
  cbn [length]. lia.
Qed.

Ltac row_simpl R :=
  let H := fresh "Hrow" in
  pose proof R as H; destruct H;
  cbn [base_value country_effect platform_effect segment_effect
       category_effect group_effect value_noise df userid country platform
       user_segment abgroup age engagement_score country_idx platform_idx
       segment_idx value pre_test_value assemble];
  unfold a_pre_test_value, a_value, a_value_noise, a_group_effect,
    a_category_effect, a_segment_effect, a_platform_effect, a_country_effect,
    a_segment_idx, a_platform_idx, a_country_idx, a_base_value,
    a_engagement_score, a_age, a_abgroup, a_user_segment, a_platform,
    a_country, vadd, vmul, sadd, smul;
  autorewrite with rows;
  repeat match goal with
         | E : _ !! _ = Some _ |- _ => rewrite E
         end;
  cbn [fmap option_fmap option_map mbind option_bind].

(** ** Lengths of the assembled columns *)

Lemma assemble_lengths num_users countries platforms user_segments ab_groups
    base_increase_percentage noise_level nc np ns d :
  0 <= num_users ->
  well_drawn (Z.to_nat num_users) nc np ns d ->
  let t := df (assemble num_users countries platforms user_segments ab_groups
                 base_increase_percentage noise_level d) in
  userid t = seqZ 1 num_users
  /\ length (userid t) = Z.to_nat num_users
  /\ length (country t) = Z.to_nat num_users
  /\ length (platform t) = Z.to_nat num_users
  /\ length (abgroup t) = Z.to_nat num_users
  /\ length (age t) = Z.to_nat num_users
  /\ length (value t) = Z.to_nat num_users
  /\ length (pre_test_value t) = Z.to_nat num_users.
Proof.
  intros Hn W. destruct W.
  cbn [df userid country platform abgroup age value pre_test_value assemble].
  unfold a_pre_test_value, a_value, a_value_noise, a_group_effect,
    a_category_effect, a_segment_effect, a_platform_effect, a_country_effect,
    a_segment_idx, a_platform_idx, a_country_idx, a_base_value,
    a_engagement_score, a_age, a_abgroup, a_user_segment, a_platform,
    a_country, vadd, vmul, sadd, smul, range.
  replace (num_users + 1 - 1) with num_users by lia.
  split_and!; [reflexivity | apply length_seqZ | ..];
    repeat first
      [ rewrite length_map
      | rewrite length_zip_with
      | rewrite (length_np_where _ _ _ (Z.to_nat num_users)) ];
    lia.
Qed.

(** ** The projector *)

Lemma to_datetime_replicate (n : nat) (s : string) (t : Timestamp) :
  parse_iso_date s = Some t ->
  to_datetime (replicate n s) = inr (replicate n t).
Proof.
  intros Hs. unfold to_datetime.
  induction n as [| n IH]; cbn [replicate apply]; [reflexivity |].
  now rewrite Hs, IH.
Qed.

Lemma create_dataframes_run (t : DataFrame) :
  create_dataframes t
  = inr ({| ev_timestamp := replicate (len t) day_post
                            ++ replicate (len t) day_pre;
            ev_userid := userid t ++ userid t;
            event_name := replicate (len t) "purchase"
                          ++ replicate (len t) "purchase";
            purchase_value := value t ++ pre_test_value t |},
         {| al_timestamp := replicate (len t) day_alloc;
            al_userid := userid t;
            al_abgroup := abgroup t |},
         {| pr_userid := userid t;
            pr_age := age t;
            pr_country := country t;
            device_type := platform t;
            membership_status := replicate (len t) "Free" |}).
Proof.
  unfold create_dataframes.
  rewrite (to_datetime_replicate (len t) "2022-12-10" day_post eq_refl).
  rewrite (to_datetime_replicate (len t) "2022-12-01" day_pre eq_refl).
  rewrite (to_datetime_replicate (len t) "2022-12-05" day_alloc eq_refl).
  reflexivity.
Qed.

Lemma occurrences_app (u : Z) (l1 l2 : list Z) :
  occurrences u (l1 ++ l2) = (occurrences u l1 + occurrences u l2)%nat.
Proof. unfold occurrences. now rewrite filter_app, length_app. Qed.

Lemma occurrences_absent (u : Z) (l : list Z) :
  u ∉ l -> occurrences u l = O.
Proof.
  unfold occurrences. induction l as [| x l IH]; intros Hnot; [reflexivity |].
  apply not_elem_of_cons in Hnot as [Hne Hnot].
  rewrite filter_cons. destruct (decide (x = u)); [congruence |].
  now apply IH.
Qed.

Lemma occurrences_NoDup (u : Z) (l : list Z) :
  NoDup l -> u ∈ l -> occurrences u l = 1%nat.
Proof.
  induction 1 as [| x l Hx Hnd IH]; intros Hin; [inversion Hin |].
  unfold occurrences. rewrite filter_cons.
  destruct (decide (x = u)) as [-> | Hne].
  - cbn [length]. f_equal. now apply occurrences_absent.
  - apply elem_of_cons in Hin as [-> | Hin]; [congruence |].
    now apply IH.
Qed.

Lemma occurrences_seqZ (u n : Z) :
  occurrences u (seqZ 1 n) = if decide (1 <= u <= n) then 1%nat else O.
Proof.
  destruct (decide (1 <= u <= n)) as [Hu | Hu].
  - apply occurrences_NoDup; [apply NoDup_seqZ |]. apply elem_of_seqZ. lia.
  - apply occurrences_absent. rewrite elem_of_seqZ. lia.
Qed.

(** * The claims *)

Section Claims.

Context {G : BitGenerator}.

(** C1. Two invocations of [generate_synthetic_data] with the same
    parameters and the same seed return the same table (and leave the
    generator in the same state), whatever state the process-wide generator
    was in before each call: [np.random.seed] overwrites it. *)
Theorem generate_synthetic_data_deterministic
    num_users countries platforms user_segments ab_groups
    base_increase_percentage noise_level seed (st1 st2 : rng G) :
  generate_synthetic_data num_users countries platforms user_segments
    ab_groups base_increase_percentage noise_level seed st1
  = generate_synthetic_data num_users countries platforms user_segments
      ab_groups base_increase_percentage noise_level seed st2.
Proof.
  unfold generate_synthetic_data, generate_locals, bind at 1 2.
  unfold bind at 2 3. unfold np_random_seed.
  destruct ((0 <=? seed) && (seed <? 2 ^ 32)); reflexivity.
Qed.

Lemma consume_z_value n nc np ns (st : rng G) :
  exists s, z_value (fst (consume n nc np ns st))
            = fst (iterate_draw (next_gauss G) n s).
Proof.
  unfold consume.
  repeat match goal with
         | |- context [let (_, _) := iterate_draw ?p ?k ?s in _] =>
             let E := fresh "E" in
             destruct (iterate_draw p k s) as [? ?] eqn:E
         end.
  cbn [fst z_value].
  match goal with
  | E : iterate_draw (next_gauss G) n ?s = (?l, _) |- exists _, ?l = _ =>
      exists s; now rewrite E
  end.
Qed.

(** C2. For every row of the generated table, [value] is
    [base_effect * (1 + category_effect) * (1 + group_effect)] plus that
    row's entry of the array drawn by [np.random.normal(0, noise_level)],
    and [base_effect], the row's entry of [base_value], increases strictly
    with [age] and with [engagement_score]. *)
Theorem value_is_composed_effect
    num_users countries platforms user_segments ab_groups
    base_increase_percentage noise_level seed (st : rng G) (i : nat) :
  accepted num_users countries platforms user_segments ab_groups
    noise_level seed ->
  (i < Z.to_nat num_users)%nat ->
  exists l st',
    generate_locals num_users countries platforms user_segments ab_groups
      base_increase_percentage noise_level seed st = inr (l, st')
    /\ generate_synthetic_data num_users countries platforms user_segments
         ab_groups base_increase_percentage noise_level seed st
       = inr (df l, st')
    /\ (exists s s' : rng G, normal 0 noise_level num_users s
                             = inr (value_noise l, s'))
    /\ exists a e c g z,
         age (df l) !! i = Some a
         /\ engagement_score (df l) !! i = Some e
         /\ base_value l !! i = Some (base_effect a e)
         /\ category_effect l !! i = Some c
         /\ group_effect l !! i = Some g
         /\ value_noise l !! i = Some z
         /\ value (df l) !! i
            = Some (base_effect a e * (1 + c) * (1 + g) + z)%R
         /\ (forall a', a < a' -> (base_effect a e < base_effect a' e)%R)
         /\ (forall e', (e < e')%R -> (base_effect a e < base_effect a e')%R).
Proof.
  intros Hacc Hi.
  pose proof (generate_locals_accepted num_users countries platforms
                user_segments ab_groups base_increase_percentage noise_level
                seed st Hacc) as Hrun.
  set (d := fst (consume _ _ _ _ _)) in Hrun.
  eexists _, _. split; [exact Hrun |].
  split; [unfold generate_synthetic_data; now rewrite (bind_inr _ _ _ _ _ Hrun) |].
  split.
  { destruct (consume_z_value (Z.to_nat num_users)
                (Z.of_nat (length countries)) (Z.of_nat (length platforms))
                (Z.of_nat (length user_segments)) (init_by_seed G seed))
      as [s Hs].
    exists s. eexists.
    destruct Hacc as (_ & Hn & _ & _ & Hnoise).
    rewrite (normal_run 0 noise_level num_users s Hnoise Hn).
    cbn [value_noise assemble]. unfold a_value_noise, d. rewrite Hs.
    reflexivity. }
  destruct (well_drawn_row _ _ _ _ d i (consume_well_drawn _ _ _ _ _) Hi)
    as (kc & kp & ks & ua & ka & ue & u1 & u2 & u3 & ut & uc & zv & z1 & z2
        & u4 & z3 & Hrow & _).
  eexists _, _, _, _, _. split_and!.
  1-7: row_simpl Hrow; reflexivity.
  - intros a' Ha. unfold base_effect. apply IZR_lt in Ha. lra.
  - intros e' He. unfold base_effect. lra.
Qed.

(** C3, as the code has it. For every row, [group_effect] is the row's
    entry of the array drawn over [treatment_range] when [abgroup] is ["b"]
    and the row's entry of the array drawn over [control_range] otherwise;
    it lies in the selected interval.  The two intervals have the same
    width, four times [base_increase_percentage]: the treatment interval is
    centred at [base_increase_percentage], the other one at zero. *)
Theorem group_effect_ranges
    num_users countries platforms user_segments ab_groups
    base_increase_percentage noise_level seed (st : rng G) (i : nat) :
  accepted num_users countries platforms user_segments ab_groups
    noise_level seed ->
  (0 <= base_increase_percentage)%R ->
  (i < Z.to_nat num_users)%nat ->
  exists l st',
    generate_locals num_users countries platforms user_segments ab_groups
      base_increase_percentage noise_level seed st = inr (l, st')
    /\ generate_synthetic_data num_users countries platforms user_segments
         ab_groups base_increase_percentage noise_level seed st
       = inr (df l, st')
    /\ exists a g ut uc,
         abgroup (df l) !! i = Some a
         /\ group_effect l !! i = Some g
         /\ unit_interval ut /\ unit_interval uc
         /\ g = (if String.eqb a "b"
                 then scale_to (fst (treatment_range base_increase_percentage))
                        (snd (treatment_range base_increase_percentage)) ut
                 else scale_to (fst (control_range base_increase_percentage))
                        (snd (control_range base_increase_percentage)) uc)
         /\ (let r := if String.eqb a "b"
                      then treatment_range base_increase_percentage
                      else control_range base_increase_percentage in
             (fst r <= g <= snd r)%R
             /\ ((0 < base_increase_percentage)%R -> (g < snd r)%R))
         /\ range_width (treatment_range base_increase_percentage)
            = range_width (control_range base_increase_percentage)
         /\ range_width (treatment_range base_increase_percentage)
            = (4 * base_increase_percentage)%R
         /\ range_midpoint (treatment_range base_increase_percentage)
            = base_increase_percentage
         /\ range_midpoint (control_range base_increase_percentage) = 0%R.
Proof.
  intros Hacc Hb Hi.
  pose proof (generate_locals_accepted num_users countries platforms
                user_segments ab_groups base_increase_percentage noise_level
                seed st Hacc) as Hrun.
  set (d := fst (consume _ _ _ _ _)) in Hrun.
  eexists _, _. split; [exact Hrun |].
  split; [unfold generate_synthetic_data;
          now rewrite (bind_inr _ _ _ _ _ Hrun) |].
  destruct (well_drawn_row _ _ _ _ d i (consume_well_drawn _ _ _ _ _) Hi)
    as (kc & kp & ks & ua & ka & ue & u1 & u2 & u3 & ut & uc & zv & z1 & z2
        & u4 & z3 & Hrow & _ & _ & _ & _ & _ & _ & Hut & Huc).
  eexists _, _, ut, uc. split_and!.
  1-2: row_simpl Hrow; reflexivity.
  - exact Hut.
  - exact Huc.
  - reflexivity.
  - cbv zeta. destruct (String.eqb _ "b").
    + destruct (scale_to_bounds
                  (fst (treatment_range base_increase_percentage))
                  (snd (treatment_range base_increase_percentage)) ut)
        as [H1 H2]; [cbn; lra | exact Hut |].
      split; [exact H1 |]. intros Hpos. apply H2. cbn. lra.
    + destruct (scale_to_bounds
                  (fst (control_range base_increase_percentage))
                  (snd (control_range base_increase_percentage)) uc)
        as [H1 H2]; [cbn; lra | exact Huc |].
      split; [exact H1 |]. intros Hpos. apply H2. cbn. lra.
  - unfold range_width. cbn. lra.
  - unfold range_width. cbn. lra.
  - unfold range_midpoint. cbn. lra.
  - unfold range_midpoint. cbn. lra.
Qed.




Lemma not_accepted_iff num_users countries platforms user_segments
    ab_groups noise_level seed :
  ~ accepted num_users countries platforms user_segments ab_groups
      noise_level seed
  <-> (~ 0 <= seed < 2 ^ 32
       \/ num_users < 0
       \/ (num_users <> 0
           /\ (countries = [] \/ platforms = [] \/ user_segments = []))
       \/ length ab_groups <> 3%nat
       \/ (noise_level < 0)%R).
Proof.
  unfold accepted. split.
  - intros Hrej.
    destruct (decide (0 <= seed < 2 ^ 32)); [| now left].
    destruct (Z.lt_ge_cases num_users 0); [right; now left |].
    destruct (decide (length ab_groups = 3%nat));
      [| right; right; right; now left].
    destruct (Rlt_dec noise_level 0); [right; right; right; now right |].
    right. right. left.
    destruct (decide (num_users = 0)) as [Hz | Hnz].
    { exfalso. apply Hrej. repeat split; try lia; try lra. }
    split; [exact Hnz |].
    destruct countries; [now left |].
    destruct platforms; [right; now left |].
    destruct user_segments; [right; now right |].
    exfalso. apply Hrej. repeat split; try lia; try lra.
    right. repeat split; discriminate.
  - intros [H | [H | [(Hnz & H) | [H | H]]]] (Hs & Hn & Hv & Ha & Hz);
      try lia; try lra; try contradiction.
    destruct Hv as [? | (? & ? & ?)]; [contradiction |].
    destruct H as [? | [? | ?]]; contradiction.
Qed.


(** C6. For the table the generator returns on [num_users = N], the
    projector returns an event log of [2N] rows and allocation and
    properties tables of [N] rows each.  Every userid [1..N] occurs twice
    in the event log and once in each of the other two, and no other userid
    occurs.  Row [i] of the event log carries user [i+1], the later date and
    [value]; row [N+i] carries the same user, the earlier date and
    [pre_test_value]; row [i] of the allocation table carries user [i+1]
    and its group. *)
Theorem create_dataframes_cardinality
    num_users countries platforms user_segments ab_groups
    base_increase_percentage noise_level seed (st : rng G) :
  accepted num_users countries platforms user_segments ab_groups
    noise_level seed ->
  exists t st' ev al pr,
    generate_synthetic_data num_users countries platforms user_segments
      ab_groups base_increase_percentage noise_level seed st = inr (t, st')
    /\ create_dataframes t = inr (ev, al, pr)
    /\ userid t = seqZ 1 num_users
    /\ len t = Z.to_nat num_users
    /\ (length (ev_timestamp ev) = 2 * len t
        /\ length (ev_userid ev) = 2 * len t
        /\ length (event_name ev) = 2 * len t
        /\ length (purchase_value ev) = 2 * len t)%nat
    /\ (length (al_timestamp al) = len t
        /\ length (al_userid al) = len t
        /\ length (al_abgroup al) = len t)
    /\ (length (pr_userid pr) = len t
        /\ length (pr_age pr) = len t
        /\ length (pr_country pr) = len t
        /\ length (device_type pr) = len t
        /\ length (membership_status pr) = len t)
    /\ (forall u, 1 <= u <= num_users ->
          occurrences u (ev_userid ev) = 2%nat
          /\ occurrences u (al_userid al) = 1%nat
          /\ occurrences u (pr_userid pr) = 1%nat)
    /\ (forall u, ~ 1 <= u <= num_users ->
          occurrences u (ev_userid ev) = O
          /\ occurrences u (al_userid al) = O
          /\ occurrences u (pr_userid pr) = O)
    /\ (forall i, (i < len t)%nat ->
          exists v p g,
            value t !! i = Some v
            /\ pre_test_value t !! i = Some p
            /\ abgroup t !! i = Some g
            /\ event_row ev i
               = Some (day_post, 1 + Z.of_nat i, "purchase", v)
            /\ event_row ev (len t + i)
               = Some (day_pre, 1 + Z.of_nat i, "purchase", p)
            /\ allocation_row al i = Some (day_alloc, 1 + Z.of_nat i, g)
            /\ ts_lt day_pre day_post).
Proof.
  intros Hacc.
  pose proof (generate_locals_accepted num_users countries platforms
                user_segments ab_groups base_increase_percentage noise_level
                seed st Hacc) as Hrun.
  set (d := fst (consume _ _ _ _ _)) in Hrun.
  destruct Hacc as (_ & Hn & _).
  destruct (assemble_lengths num_users countries platforms user_segments
              ab_groups base_increase_percentage noise_level _ _ _ d Hn
              (consume_well_drawn _ _ _ _ _))
    as (Hid & Hlid & Hlc & Hlp & Hlg & Hla & Hlv & Hlq).
  set (t := df (assemble _ _ _ _ _ _ _ d)) in *.
  eexists t, _, _, _, _.
  split; [unfold generate_synthetic_data;
          rewrite (bind_inr _ _ _ _ _ Hrun); reflexivity |].
  split; [apply create_dataframes_run |].
  cbn [ev_timestamp ev_userid event_name purchase_value al_timestamp
       al_userid al_abgroup pr_userid pr_age pr_country device_type
       membership_status].
  assert (Hlen : len t = Z.to_nat num_users) by exact Hlid.
  split; [exact Hid |]. split; [exact Hlen |].
  split; [rewrite !length_app, !length_replicate; unfold len in *; lia |].
  split; [rewrite !length_replicate; unfold len in *; lia |].
  split; [rewrite !length_replicate; unfold len in *; lia |].
  split.
  { intros u Hu. rewrite occurrences_app, Hid, occurrences_seqZ.
    destruct (decide (1 <= u <= num_users)); [auto | contradiction]. }
  split.
  { intros u Hu. rewrite occurrences_app, Hid, occurrences_seqZ.
    destruct (decide (1 <= u <= num_users)); [contradiction | auto]. }
  intros i Hi.
  destruct (lookup_lt_is_Some_2 (value t) i) as [v Hv]; [lia |].
  destruct (lookup_lt_is_Some_2 (pre_test_value t) i) as [q Hq]; [lia |].
  destruct (lookup_lt_is_Some_2 (abgroup t) i) as [g Hg]; [lia |].
  exists v, q, g. split; [exact Hv |]. split; [exact Hq |].
  split; [exact Hg |].
  assert (Hu : userid t !! i = Some (1 + Z.of_nat i)).
  { rewrite Hid. apply lookup_seqZ_lt. lia. }
  unfold event_row, allocation_row.
  cbn [ev_timestamp ev_userid event_name purchase_value al_timestamp
       al_userid al_abgroup].
  split; [| split; [| split; [| reflexivity]]].
  - rewrite !lookup_app_l
      by (rewrite ?length_replicate; unfold len in *; lia).
    rewrite !lookup_replicate_2 by lia. now rewrite Hu, Hv.
  - rewrite !lookup_app_r
      by (rewrite ?length_replicate; unfold len in *; lia).
    rewrite !length_replicate.
    replace (len t + i - len t)%nat with i by lia.
    replace (len t + i - length (userid t))%nat with i
      by (unfold len; lia).
    replace (len t + i - length (value t))%nat with i by lia.
    rewrite !lookup_replicate_2 by lia. now rewrite Hu, Hq.
  - rewrite lookup_replicate_2 by lia. now rewrite Hu, Hg.
Qed.

(** C8. The pre-period outcome never sees the group effect. Two calls that
    differ only in the group labels and in [base_increase_percentage] (so
    that every user's [abgroup], and with it the group effect, may change)
    return the same [pre_test_value] column.  Row by row it is computed from
    [base_value], [category_effect], [engagement_score] and four noise
    draws of its own. *)
Theorem pre_test_value_ignores_group
    num_users countries platforms user_segments ab_groups ab_groups'
    base_increase_percentage base_increase_percentage' noise_level seed
    (st st0 : rng G) (i : nat) :
  accepted num_users countries platforms user_segments ab_groups
    noise_level seed ->
  length ab_groups' = 3%nat ->
  (i < Z.to_nat num_users)%nat ->
  exists l l' s s',
    generate_locals num_users countries platforms user_segments ab_groups
      base_increase_percentage noise_level seed st = inr (l, s)
    /\ generate_locals num_users countries platforms user_segments ab_groups'
         base_increase_percentage' noise_level seed st0 = inr (l', s')
    /\ generate_synthetic_data num_users countries platforms user_segments
         ab_groups base_increase_percentage noise_level seed st
       = inr (df l, s)
    /\ generate_synthetic_data num_users countries platforms user_segments
         ab_groups' base_increase_percentage' noise_level seed st0
       = inr (df l', s')
    /\ pre_test_value (df l) = pre_test_value (df l')
    /\ exists bv c e z1 z2 u4 z3,
         let d := fst (consume (Z.to_nat num_users)
                         (Z.of_nat (length countries))
                         (Z.of_nat (length platforms))
                         (Z.of_nat (length user_segments))
                         (init_by_seed G seed)) in
         base_value l !! i = Some bv
         /\ category_effect l !! i = Some c
         /\ engagement_score (df l) !! i = Some e
         /\ z_pre1 d !! i = Some z1
         /\ z_pre2 d !! i = Some z2
         /\ u_pre d !! i = Some u4
         /\ z_pre3 d !! i = Some z3
         /\ pre_test_value (df l) !! i
            = Some (bv * (1 + (1 + 5 / 10 * z1) * c) * (1 + (0 + 5 / 100 * z2))
                    + 5 / 10 * sin (e / 2) * scale_to (-1) 1 u4
                    + (-1 + 1 * z3))%R.
Proof.
  intros Hacc Hab' Hi.
  assert (Hacc' : accepted num_users countries platforms user_segments
                    ab_groups' noise_level seed).
  { destruct Hacc as (H1 & H2 & H3 & _ & H5). repeat split; tauto. }
  pose proof (generate_locals_accepted num_users countries platforms
                user_segments ab_groups base_increase_percentage noise_level
                seed st Hacc) as Hrun.
  pose proof (generate_locals_accepted num_users countries platforms
                user_segments ab_groups' base_increase_percentage'
                noise_level seed st0 Hacc') as Hrun'.
  set (d := fst (consume _ _ _ _ _)) in Hrun, Hrun'.
  eexists _, _, _, _. split; [exact Hrun |]. split; [exact Hrun' |].
  split; [unfold generate_synthetic_data;
          now rewrite (bind_inr _ _ _ _ _ Hrun) |].
  split; [unfold generate_synthetic_data;
          now rewrite (bind_inr _ _ _ _ _ Hrun') |].
  split; [reflexivity |].
  destruct (well_drawn_row _ _ _ _ d i (consume_well_drawn _ _ _ _ _) Hi)
    as (kc & kp & ks & ua & ka & ue & u1 & u2 & u3 & ut & uc & zv & z1 & z2
        & u4 & z3 & Hrow & _).
  eexists _, _, _, z1, z2, u4, z3. cbv zeta. fold d. split_and!.
  1-3: row_simpl Hrow; reflexivity.
  - apply (rd_z1 _ _ _ _ _ _ _ _ _ _ _ _ _ _ _ _ _ _ Hrow).
  - apply (rd_z2 _ _ _ _ _ _ _ _ _ _ _ _ _ _ _ _ _ _ Hrow).
  - apply (rd_u4 _ _ _ _ _ _ _ _ _ _ _ _ _ _ _ _ _ _ Hrow).
  - apply (rd_z3 _ _ _ _ _ _ _ _ _ _ _ _ _ _ _ _ _ _ Hrow).
  - row_simpl Hrow. reflexivity.
Qed.

End Claims.

(** C7. For every user of the table handed to the projector, the event row
    that carries the pre-period outcome is dated 1 December 2022, the user's
    allocation row 5 December 2022 and the event row that carries the
    post-period outcome 10 December 2022, so the pre-period stamp is
    strictly before the allocation stamp, which is strictly before the
    post-period stamp.  No event row and no allocation row has any other
    date. *)
Theorem timestamps_ordered (t : DataFrame) (i : nat) (u : Z) :
  userid t !! i = Some u ->
  exists ev al pr,
    create_dataframes t = inr (ev, al, pr)
    /\ ev_userid ev !! (len t + i)%nat = Some u
    /\ ev_timestamp ev !! (len t + i)%nat = Some day_pre
    /\ al_userid al !! i = Some u
    /\ al_timestamp al !! i = Some day_alloc
    /\ ev_userid ev !! i = Some u
    /\ ev_timestamp ev !! i = Some day_post
    /\ ts_lt day_pre day_alloc
    /\ ts_lt day_alloc day_post
    /\ (forall j x, ev_timestamp ev !! j = Some x ->
                    x = day_pre \/ x = day_post)
    /\ (forall j x, al_timestamp al !! j = Some x -> x = day_alloc)
    /\ day_pre = {| year := 2022; month := 12; day := 1 |}
    /\ day_alloc = {| year := 2022; month := 12; day := 5 |}
    /\ day_post = {| year := 2022; month := 12; day := 10 |}.
Proof.
  intros Hu.
  assert (Hi : (i < len t)%nat) by (eapply lookup_lt_Some, Hu).
  eexists _, _, _. split; [apply create_dataframes_run |].
  cbn [ev_timestamp ev_userid al_timestamp al_userid].
  split_and!; try reflexivity.
  - rewrite lookup_app_r by (unfold len; lia).
    replace (len t + i - length (userid t))%nat with i by (unfold len; lia).
    exact Hu.
  - rewrite lookup_app_r by (rewrite length_replicate; lia).
    rewrite length_replicate.
    replace (len t + i - len t)%nat with i by lia.
    now apply lookup_replicate_2.
  - exact Hu.
  - now apply lookup_replicate_2.
  - rewrite lookup_app_l by (unfold len in Hi; exact Hi). exact Hu.
  - rewrite lookup_app_l by (rewrite length_replicate; lia).
    now apply lookup_replicate_2.
  - intros j x Hx. apply lookup_app_Some in Hx as [Hx | [_ Hx]];
      apply lookup_replicate in Hx as [-> _]; [now right | now left].
  - intros j x Hx. now apply lookup_replicate in Hx as [-> _].
Qed.

(** * The claims on the reference scenario

    [num_users = 5], one country, one platform, one segment, the groups
    [a1], [a2] and [b], [base_increase_percentage = 0.05],
    [noise_level = 1], [seed = 40], run on the generator [lehmer]. *)

Ltac scenario_accepted :=
  unfold accepted; change (2 ^ 32) with 4294967296;
  split; [lia |]; split; [lia |];
  split; [first [left; reflexivity | right; split_and!; discriminate] |];
  split; [reflexivity | lra].

Lemma value_is_composed_effect_witness :
  accepted 5 ["US"] ["iOS"] ["Segment_1"] ["a1"; "a2"; "b"] 1 40
  /\ (0 < Z.to_nat 5)%nat
  /\ exists l st',
       generate_synthetic_data (G := lehmer) 5 ["US"] ["iOS"] ["Segment_1"]
         ["a1"; "a2"; "b"] (5 / 100) 1 40 0 = inr (df l, st')
       /\ exists a e c g z,
            age (df l) !! O = Some a
            /\ engagement_score (df l) !! O = Some e
            /\ category_effect l !! O = Some c
            /\ group_effect l !! O = Some g
            /\ value_noise l !! O = Some z
            /\ value (df l) !! O
               = Some (base_effect a e * (1 + c) * (1 + g) + z)%R.
Proof.
  assert (Hacc : accepted 5 ["US"] ["iOS"] ["Segment_1"] ["a1"; "a2"; "b"]
                   1 40) by scenario_accepted.
  assert (Hi : (0 < Z.to_nat 5)%nat) by (vm_compute; lia).
  split; [exact Hacc |]. split; [exact Hi |].
  destruct (value_is_composed_effect (G := lehmer) 5 ["US"] ["iOS"]
              ["Segment_1"] ["a1"; "a2"; "b"] (5 / 100) 1 40 0 O Hacc Hi)
    as (l & st' & _ & Hrun & _ & a & e & c & g & z
        & Ha & He & _ & Hc & Hg & Hz & Hv & _).
  exists l, st'. split; [exact Hrun |].
  exists a, e, c, g, z. repeat (split; [assumption |]). exact Hv.
Defined.

(** The claim of C3 that the treatment interval is strictly wider fails at
    [base_increase_percentage = 0.05]: both intervals are 0.2 wide. *)
Lemma treatment_range_not_wider :
  range_width (treatment_range (5 / 100)) = (2 / 10)%R
  /\ range_width (control_range (5 / 100)) = (2 / 10)%R
  /\ ~ (range_width (control_range (5 / 100))
        < range_width (treatment_range (5 / 100)))%R.
Proof.
  unfold range_width, treatment_range, control_range. cbn [fst snd].
  split; [lra |]. split; lra.
Qed.

Lemma group_effect_ranges_witness :
  accepted 5 ["US"] ["iOS"] ["Segment_1"] ["a1"; "a2"; "b"] 1 40
  /\ (0 <= 5 / 100)%R
  /\ (0 < Z.to_nat 5)%nat
  /\ exists l st',
       generate_locals (G := lehmer) 5 ["US"] ["iOS"] ["Segment_1"]
         ["a1"; "a2"; "b"] (5 / 100) 1 40 0 = inr (l, st')
       /\ generate_synthetic_data (G := lehmer) 5 ["US"] ["iOS"]
            ["Segment_1"] ["a1"; "a2"; "b"] (5 / 100) 1 40 0
          = inr (df l, st')
       /\ exists a g,
            abgroup (df l) !! O = Some a
            /\ group_effect l !! O = Some g
            /\ (let r := if String.eqb a "b"
                         then treatment_range (5 / 100)
                         else control_range (5 / 100) in
                (fst r <= g <= snd r)%R)
            /\ range_width (treatment_range (5 / 100))
               = range_width (control_range (5 / 100)).
Proof.
  assert (Hacc : accepted 5 ["US"] ["iOS"] ["Segment_1"] ["a1"; "a2"; "b"]
                   1 40) by scenario_accepted.
  assert (Hb : (0 <= 5 / 100)%R) by lra.
  assert (Hi : (0 < Z.to_nat 5)%nat) by (vm_compute; lia).
  split; [exact Hacc |]. split; [exact Hb |]. split; [exact Hi |].
  destruct (group_effect_ranges (G := lehmer) 5 ["US"] ["iOS"]
              ["Segment_1"] ["a1"; "a2"; "b"] (5 / 100) 1 40 0 O Hacc Hb Hi)
    as (l & st' & Hrun & Hdata & a & g & ut & uc & Ha & Hg & _ & _ & _ & Hr & Hw & _).
  exists l, st'. split; [exact Hrun |]. split; [exact Hdata |].
  exists a, g. split; [exact Ha |]. split; [exact Hg |].
  split; [exact (proj1 Hr) | exact Hw].
Defined.



Lemma create_dataframes_cardinality_witness :
  accepted 5 ["US"] ["iOS"] ["Segment_1"] ["a1"; "a2"; "b"] 1 40
  /\ exists t st' ev al pr,
       generate_synthetic_data (G := lehmer) 5 ["US"] ["iOS"] ["Segment_1"]
         ["a1"; "a2"; "b"] (5 / 100) 1 40 0 = inr (t, st')
       /\ create_dataframes t = inr (ev, al, pr)
       /\ userid t = [1; 2; 3; 4; 5]
       /\ length (ev_userid ev) = 10%nat
       /\ length (al_userid al) = 5%nat
       /\ length (pr_userid pr) = 5%nat
       /\ occurrences 3 (ev_userid ev) = 2%nat
       /\ occurrences 3 (al_userid al) = 1%nat
       /\ occurrences 3 (pr_userid pr) = 1%nat.
Proof.
  assert (Hacc : accepted 5 ["US"] ["iOS"] ["Segment_1"] ["a1"; "a2"; "b"]
                   1 40) by scenario_accepted.
  split; [exact Hacc |].
  destruct (create_dataframes_cardinality (G := lehmer) 5 ["US"] ["iOS"]
              ["Segment_1"] ["a1"; "a2"; "b"] (5 / 100) 1 40 0 Hacc)
    as (t & st' & ev & al & pr & Hrun & Hproj & Hid & Hlen
        & (_ & Hev & _) & (_ & Hal & _) & (Hpr & _) & Hocc & _).
  exists t, st', ev, al, pr.
  destruct (Hocc 3 ltac:(lia)) as (H1 & H2 & H3).
  rewrite Hlen in Hev, Hal, Hpr.
  split_and!; assumption.
Defined.

Lemma timestamps_ordered_witness :
  userid two_users !! 1%nat = Some 2
  /\ exists ev al pr,
       create_dataframes two_users = inr (ev, al, pr)
       /\ ev_userid ev !! 3%nat = Some 2
       /\ ev_timestamp ev !! 3%nat = Some day_pre
       /\ al_userid al !! 1%nat = Some 2
       /\ al_timestamp al !! 1%nat = Some day_alloc
       /\ ev_userid ev !! 1%nat = Some 2
       /\ ev_timestamp ev !! 1%nat = Some day_post
       /\ ts_lt day_pre day_alloc
       /\ ts_lt day_alloc day_post.
Proof.
  assert (Hu : userid two_users !! 1%nat = Some 2) by reflexivity.
  split; [exact Hu |].
  destruct (timestamps_ordered two_users 1 2 Hu)
    as (ev & al & pr & Hrun & H1 & H2 & H3 & H4 & H5 & H6 & H7 & H8 & _).
  exists ev, al, pr. split_and!; assumption.
Defined.

Lemma pre_test_value_ignores_group_witness :
  accepted 5 ["US"] ["iOS"] ["Segment_1"] ["a1"; "a2"; "b"] 1 40
  /\ length ["b"; "a1"; "a2"] = 3%nat
  /\ (0 < Z.to_nat 5)%nat
  /\ exists l l' s s',
       generate_synthetic_data (G := lehmer) 5 ["US"] ["iOS"] ["Segment_1"]
         ["a1"; "a2"; "b"] (5 / 100) 1 40 0 = inr (df l, s)
       /\ generate_synthetic_data (G := lehmer) 5 ["US"] ["iOS"]
            ["Segment_1"] ["b"; "a1"; "a2"] (50 / 100) 1 40 7
          = inr (df l', s')
       /\ pre_test_value (df l) = pre_test_value (df l').
Proof.
  assert (Hacc : accepted 5 ["US"] ["iOS"] ["Segment_1"] ["a1"; "a2"; "b"]
                   1 40) by scenario_accepted.
  assert (Hab : length ["b"; "a1"; "a2"] = 3%nat) by reflexivity.
  assert (Hi : (0 < Z.to_nat 5)%nat) by (vm_compute; lia).
  split; [exact Hacc |]. split; [exact Hab |]. split; [exact Hi |].
  destruct (pre_test_value_ignores_group (G := lehmer) 5 ["US"] ["iOS"]
              ["Segment_1"] ["a1"; "a2"; "b"] ["b"; "a1"; "a2"]
              (5 / 100) (50 / 100) 1 40 0 7 O Hacc Hab Hi)
    as (l & l' & s & s' & _ & _ & H1 & H2 & H3 & _).
  exists l, l', s, s'. split_and!; assumption.
Defined.



(** * Further properties of the generator and the projector *)

Lemma bucket_range (l : list string) (k : Z) (x : string) :
  0 < k -> 0 <= bucket l k x < k.
Proof.
  intros Hk. unfold bucket, index_mod.
  destruct (index l x) as [e | j]; [lia |]. apply Z.mod_pos_bound, Hk.
Qed.

Lemma index_first (l : list string) (x : string) (j : nat) :
  l !! j = Some x ->
  (forall j', (j' < j)%nat -> l !! j' <> Some x) ->
  index l x = inr (Z.of_nat j).
Proof.
  revert j. induction l as [| y l IH]; intros j Hj Hfirst; [inversion Hj |].
  cbn [index]. destruct (String.eqb_spec y x) as [-> | Hne].
  - destruct j as [| j]; [reflexivity |].
    exfalso. apply (Hfirst O); [lia | reflexivity].
  - destruct j as [| j]; [cbn in Hj; congruence |].
    rewrite (IH j).
    + f_equal. lia.
    + exact Hj.
    + intros j' Hlt. apply (Hfirst (S j')). lia.
Qed.

Lemma well_drawn_empty nc np ns d :
  well_drawn O nc np ns d ->
  k_country d = [] /\ k_platform d = [] /\ k_segment d = []
  /\ u_abgroup d = [] /\ k_age d = [] /\ u_engagement d = [].
Proof.
  intros W. destruct W. split_and!; now apply nil_length_inv.
Qed.

Section Extras.

Context {G : BitGenerator}.

Lemma generated_table num_users countries platforms user_segments ab_groups
    base_increase_percentage noise_level seed (st : rng G) :
  accepted num_users countries platforms user_segments ab_groups
    noise_level seed ->
  let c := consume (Z.to_nat num_users) (Z.of_nat (length countries))
             (Z.of_nat (length platforms)) (Z.of_nat (length user_segments))
             (init_by_seed G seed) in
  generate_synthetic_data num_users countries platforms user_segments
    ab_groups base_increase_percentage noise_level seed st
  = inr (df (assemble num_users countries platforms user_segments ab_groups
               base_increase_percentage noise_level (fst c)), snd c)
  /\ well_drawn (Z.to_nat num_users) (Z.of_nat (length countries))
       (Z.of_nat (length platforms)) (Z.of_nat (length user_segments)) (fst c)
  /\ (num_users = 0
      \/ (0 < Z.of_nat (length countries) /\ 0 < Z.of_nat (length platforms)
          /\ 0 < Z.of_nat (length user_segments))).
Proof.
  intros Hacc. cbv zeta. split_and!.
  - unfold generate_synthetic_data.
    now rewrite (bind_inr _ _ _ _ _
                   (generate_locals_accepted _ _ _ _ _ _ _ _ st Hacc)).
  - apply consume_well_drawn.
  - destruct Hacc as (_ & _ & [Hz | (Hc & Hp & Hs)] & _); [now left | right].
    destruct countries, platforms, user_segments; try congruence.
    cbn [length]. lia.
Qed.


(** X2. In the returned table every age is an integer from 18 to 64 and
    every engagement score lies in [0, 10). *)
Theorem age_and_engagement_ranges
    num_users countries platforms user_segments ab_groups
    base_increase_percentage noise_level seed (st : rng G) :
  accepted num_users countries platforms user_segments ab_groups
    noise_level seed ->
  exists t st',
    generate_synthetic_data num_users countries platforms user_segments
      ab_groups base_increase_percentage noise_level seed st = inr (t, st')
    /\ Forall (fun a => 18 <= a < 65) (age t)
    /\ Forall (fun e => (0 <= e < 10)%R) (engagement_score t).
Proof.
  intros Hacc.
  destruct (generated_table num_users countries platforms user_segments
              ab_groups base_increase_percentage noise_level seed st Hacc)
    as (Hrun & W & _).
  eexists _, _. split; [exact Hrun |].
  cbn [df age engagement_score assemble]. unfold a_age, a_engagement_score.
  split; apply Forall_map.
  - eapply Forall_impl; [exact (wd_age_range _ _ _ _ _ W) |].
    cbn beta. intros; lia.
  - eapply Forall_impl; [exact (wd_engagement_range _ _ _ _ _ W) |].
    unfold unit_interval. cbn beta. intros; lra.
Qed.

Lemma consume_multipliers n nc np ns (st : rng G) :
  let d := fst (consume n nc np ns st) in
  Forall unit_interval (u_country d)
  /\ Forall unit_interval (u_platform d)
  /\ Forall unit_interval (u_segment d)
  /\ Forall unit_interval (u_pre d).
Proof.
  unfold consume.
  repeat match goal with
         | |- context [let (_, _) := iterate_draw ?p ?k ?s in _] =>
             let E := fresh "E" in
             destruct (iterate_draw p k s) as [? ?] eqn:E;
             pose proof (proj2 (iterate_draw_named _ _ _ _ _ E))
         end.
  cbn [fst u_country u_platform u_segment u_pre].
  split_and!;
    match goal with
    | H : forall P : R -> Prop, _ |- Forall unit_interval ?l =>
        solve [apply H; intros s; apply next_double_range]
    end.
Qed.

Lemma assemble_all_lengths num_users countries platforms user_segments
    ab_groups base_increase_percentage noise_level nc np ns d :
  well_drawn (Z.to_nat num_users) nc np ns d ->
  let l := assemble num_users countries platforms user_segments ab_groups
             base_increase_percentage noise_level d in
  length (user_segment (df l)) = Z.to_nat num_users
  /\ length (engagement_score (df l)) = Z.to_nat num_users
  /\ length (country_idx (df l)) = Z.to_nat num_users
  /\ length (platform_idx (df l)) = Z.to_nat num_users
  /\ length (segment_idx (df l)) = Z.to_nat num_users
  /\ length (base_value l) = Z.to_nat num_users
  /\ length (country_effect l) = Z.to_nat num_users
  /\ length (platform_effect l) = Z.to_nat num_users
  /\ length (segment_effect l) = Z.to_nat num_users
  /\ length (category_effect l) = Z.to_nat num_users
  /\ length (group_effect l) = Z.to_nat num_users
  /\ length (value_noise l) = Z.to_nat num_users.
Proof.
  intros W. destruct W.
  cbn [df user_segment engagement_score country_idx platform_idx segment_idx
       base_value country_effect platform_effect segment_effect
       category_effect group_effect value_noise assemble].
  unfold a_value_noise, a_group_effect,
    a_category_effect, a_segment_effect, a_platform_effect, a_country_effect,
    a_segment_idx, a_platform_idx, a_country_idx, a_base_value,
    a_engagement_score, a_age, a_abgroup, a_user_segment, a_platform,
    a_country, vadd, vmul, sadd, smul.
  split_and!;
    repeat first
      [ rewrite length_map
      | rewrite length_zip_with
      | rewrite (length_np_where _ _ _ (Z.to_nat num_users)) ];
    lia.
Qed.

(** X3. The returned table is rectangular: each of its twelve columns, and
    each intermediate effect array, has exactly [num_users] entries, and
    the user ids are 1, 2, ..., [num_users]. *)
Theorem table_is_rectangular
    num_users countries platforms user_segments ab_groups
    base_increase_percentage noise_level seed (st : rng G) :
  accepted num_users countries platforms user_segments ab_groups
    noise_level seed ->
  exists l st',
    generate_locals num_users countries platforms user_segments ab_groups
      base_increase_percentage noise_level seed st = inr (l, st')
    /\ userid (df l) = seqZ 1 num_users
    /\ Forall (fun col => col = Z.to_nat num_users)
         [length (userid (df l)); length (country (df l));
          length (platform (df l)); length (user_segment (df l));
          length (abgroup (df l)); length (age (df l));
          length (engagement_score (df l)); length (country_idx (df l));
          length (platform_idx (df l)); length (segment_idx (df l));
          length (value (df l)); length (pre_test_value (df l));
          length (base_value l); length (country_effect l);
          length (platform_effect l); length (segment_effect l);
          length (category_effect l); length (group_effect l);
          length (value_noise l)].
Proof.
  intros Hacc.
  pose proof (generate_locals_accepted num_users countries platforms
                user_segments ab_groups base_increase_percentage noise_level
                seed st Hacc) as Hrun.
  set (d := fst (consume _ _ _ _ _)) in Hrun.
  destruct Hacc as (_ & Hn & _).
  destruct (assemble_lengths num_users countries platforms user_segments
              ab_groups base_increase_percentage noise_level _ _ _ d Hn
              (consume_well_drawn _ _ _ _ _))
    as (Hid & H1 & H2 & H3 & H4 & H5 & H6 & H7).
  destruct (assemble_all_lengths num_users countries platforms user_segments
              ab_groups base_increase_percentage noise_level _ _ _ d
              (consume_well_drawn _ _ _ _ _))
    as (K1 & K2 & K3 & K4 & K5 & K6 & K7 & K8 & K9 & K10 & K11 & K12).
  eexists _, _. split; [exact Hrun |]. split; [exact Hid |].
  repeat (constructor; [assumption |]). constructor.
Qed.

(** X4. Every row's base value lies between 11.8 and 26.4 (the latter not
    reached); in particular it is positive. *)
Theorem base_value_bounds
    num_users countries platforms user_segments ab_groups
    base_increase_percentage noise_level seed (st : rng G) :
  accepted num_users countries platforms user_segments ab_groups
    noise_level seed ->
  exists l st',
    generate_locals num_users countries platforms user_segments ab_groups
      base_increase_percentage noise_level seed st = inr (l, st')
    /\ Forall (fun b => (118 / 10 <= b < 264 / 10)%R) (base_value l).
Proof.
  intros Hacc.
  pose proof (generate_locals_accepted num_users countries platforms
                user_segments ab_groups base_increase_percentage noise_level
                seed st Hacc) as Hrun.
  set (d := fst (consume _ _ _ _ _)) in Hrun.
  pose proof (consume_well_drawn (Z.to_nat num_users)
                (Z.of_nat (length countries)) (Z.of_nat (length platforms))
                (Z.of_nat (length user_segments)) (init_by_seed G seed)) as W.
  fold d in W.
  eexists _, _. split; [exact Hrun |].
  apply Forall_lookup. intros i x Hx.
  assert (Hi : (i < Z.to_nat num_users)%nat).
  { apply lookup_lt_Some in Hx.
    destruct (assemble_all_lengths num_users countries platforms
                user_segments ab_groups base_increase_percentage noise_level
                _ _ _ d W) as (_ & _ & _ & _ & _ & K & _).
    now rewrite K in Hx. }
  destruct (well_drawn_row _ _ _ _ d i W Hi)
    as (kc & kp & ks & ua & ka & ue & u1 & u2 & u3 & ut & uc & zv & z1 & z2
        & u4 & z3 & Hrow & _ & _ & _ & _ & Hka & Hue & _).
  eassert (Hv : base_value (assemble num_users countries platforms
                              user_segments ab_groups
                              base_increase_percentage noise_level d) !! i
                = Some _) by (row_simpl Hrow; reflexivity).
  rewrite Hv in Hx. injection Hx as <-.
  destruct Hue as [He0 He1].
  assert (H18 : (18 <= IZR (18 + ka))%R) by (apply IZR_le; lia).
  assert (H64 : (IZR (18 + ka) <= 64)%R) by (apply IZR_le; lia).
  lra.
Qed.


(** X6. With [noise_level = 0] the noise array is all zeros and every
    row's [value] is exactly
    [base_value * (1 + category_effect) * (1 + group_effect)]. *)
Theorem noise_free_value
    num_users countries platforms user_segments ab_groups
    base_increase_percentage seed (st : rng G) (i : nat) :
  accepted num_users countries platforms user_segments ab_groups 0 seed ->
  (i < Z.to_nat num_users)%nat ->
  exists l st' bv c g,
    generate_locals num_users countries platforms user_segments ab_groups
      base_increase_percentage 0 seed st = inr (l, st')
    /\ base_value l !! i = Some bv
    /\ category_effect l !! i = Some c
    /\ group_effect l !! i = Some g
    /\ value_noise l !! i = Some 0%R
    /\ value (df l) !! i = Some (bv * (1 + c) * (1 + g))%R.
Proof.
  intros Hacc Hi.
  pose proof (generate_locals_accepted num_users countries platforms
                user_segments ab_groups base_increase_percentage 0
                seed st Hacc) as Hrun.
  set (d := fst (consume _ _ _ _ _)) in Hrun.
  destruct (well_drawn_row _ _ _ _ d i (consume_well_drawn _ _ _ _ _) Hi)
    as (kc & kp & ks & ua & ka & ue & u1 & u2 & u3 & ut & uc & zv & z1 & z2
        & u4 & z3 & Hrow & _).
  eexists _, _, _, _, _. split; [exact Hrun |]. split_and!.
  1-3: row_simpl Hrow; reflexivity.
  - row_simpl Hrow. f_equal. lra.
  - row_simpl Hrow. f_equal. lra.
Qed.

(** X7. With [base_increase_percentage = 0] both intervals collapse to the
    point 0: every row's group effect is 0, whatever its group, and [value]
    is [base_value * (1 + category_effect)] plus noise. *)
Theorem zero_increase_no_group_effect
    num_users countries platforms user_segments ab_groups
    noise_level seed (st : rng G) (i : nat) :
  accepted num_users countries platforms user_segments ab_groups
    noise_level seed ->
  (i < Z.to_nat num_users)%nat ->
  exists l st' bv c z,
    generate_locals num_users countries platforms user_segments ab_groups
      0 noise_level seed st = inr (l, st')
    /\ base_value l !! i = Some bv
    /\ category_effect l !! i = Some c
    /\ value_noise l !! i = Some z
    /\ group_effect l !! i = Some 0%R
    /\ value (df l) !! i = Some (bv * (1 + c) + z)%R.
Proof.
  intros Hacc Hi.
  pose proof (generate_locals_accepted num_users countries platforms
                user_segments ab_groups 0 noise_level seed st Hacc) as Hrun.
  set (d := fst (consume _ _ _ _ _)) in Hrun.
  destruct (well_drawn_row _ _ _ _ d i (consume_well_drawn _ _ _ _ _) Hi)
    as (kc & kp & ks & ua & ka & ue & u1 & u2 & u3 & ut & uc & zv & z1 & z2
        & u4 & z3 & Hrow & _).
  eexists _, _, _, _, _. split; [exact Hrun |]. split_and!.
  1-3: row_simpl Hrow; reflexivity.
  - row_simpl Hrow. unfold scale_to, treatment_range, control_range.
    cbn [fst snd]. destruct (String.eqb _ "b"); f_equal; lra.
  - row_simpl Hrow. unfold scale_to, treatment_range, control_range.
    cbn [fst snd]. destruct (String.eqb _ "b"); f_equal; lra.
Qed.

(** X8. The group labels, [base_increase_percentage] and [noise_level]
    reach only the [abgroup] and [value] columns.  Two calls that differ in
    nothing else return tables that agree on every other column and leave
    the generator in the same state; each user falls in the same position
    of the two label lists. *)
Theorem effect_parameters_reach_only_abgroup_and_value
    num_users countries platforms user_segments ab_groups ab_groups'
    base_increase_percentage base_increase_percentage'
    noise_level noise_level' seed (st st0 : rng G) :
  accepted num_users countries platforms user_segments ab_groups
    noise_level seed ->
  length ab_groups' = 3%nat ->
  (0 <= noise_level')%R ->
  exists t t' s s' ks,
    generate_synthetic_data num_users countries platforms user_segments
      ab_groups base_increase_percentage noise_level seed st = inr (t, s)
    /\ generate_synthetic_data num_users countries platforms user_segments
         ab_groups' base_increase_percentage' noise_level' seed st0
       = inr (t', s')
    /\ s = s'
    /\ userid t = userid t'
    /\ country t = country t'
    /\ platform t = platform t'
    /\ user_segment t = user_segment t'
    /\ age t = age t'
    /\ engagement_score t = engagement_score t'
    /\ country_idx t = country_idx t'
    /\ platform_idx t = platform_idx t'
    /\ segment_idx t = segment_idx t'
    /\ pre_test_value t = pre_test_value t'
    /\ abgroup t = map (pick ab_groups) ks
    /\ abgroup t' = map (pick ab_groups') ks
    /\ Forall (fun k => 0 <= k < 3) ks.
Proof.
  intros Hacc Hab' Hnoise'.
  assert (Hacc' : accepted num_users countries platforms user_segments
                    ab_groups' noise_level' seed).
  { destruct Hacc as (H1 & H2 & H3 & _ & _). repeat split; tauto. }
  destruct (generated_table num_users countries platforms user_segments
              ab_groups base_increase_percentage noise_level seed st Hacc)
    as (Hrun & W & _).
  destruct (generated_table num_users countries platforms user_segments
              ab_groups' base_increase_percentage' noise_level' seed st0
              Hacc') as (Hrun' & _ & _).
  eexists _, _, _, _, _. split; [exact Hrun |]. split; [exact Hrun' |].
  split_and!; try reflexivity.
  apply Forall_map.
  eapply Forall_impl; [exact (wd_abgroup_range _ _ _ _ _ W) |].
  intros u Hu. exact (searchsorted_thirds_range u Hu).
Qed.




(** X12. A row's group effect is [base_increase_percentage] times a factor
    that does not depend on it: the factor lies in [-1, 3) for a row of
    group ["b"] and in [-2, 2) for any other row, and is the same in two
    calls that differ only in [base_increase_percentage]. *)
Theorem group_effect_is_proportional
    num_users countries platforms user_segments ab_groups
    base_increase_percentage base_increase_percentage' noise_level seed
    (st st0 : rng G) (i : nat) :
  accepted num_users countries platforms user_segments ab_groups
    noise_level seed ->
  (i < Z.to_nat num_users)%nat ->
  exists l l' s s' a k,
    generate_locals num_users countries platforms user_segments ab_groups
      base_increase_percentage noise_level seed st = inr (l, s)
    /\ generate_locals num_users countries platforms user_segments ab_groups
         base_increase_percentage' noise_level seed st0 = inr (l', s')
    /\ abgroup (df l) !! i = Some a
    /\ abgroup (df l') !! i = Some a
    /\ group_effect l !! i = Some (base_increase_percentage * k)%R
    /\ group_effect l' !! i = Some (base_increase_percentage' * k)%R
    /\ (a = "b" -> (-1 <= k < 3)%R)
    /\ (a <> "b" -> (-2 <= k < 2)%R).
Proof.
  intros Hacc Hi.
  pose proof (generate_locals_accepted num_users countries platforms
                user_segments ab_groups base_increase_percentage noise_level
                seed st Hacc) as Hrun.
  pose proof (generate_locals_accepted num_users countries platforms
                user_segments ab_groups base_increase_percentage' noise_level
                seed st0 Hacc) as Hrun'.
  set (d := fst (consume _ _ _ _ _)) in Hrun, Hrun'.
  destruct (well_drawn_row _ _ _ _ d i (consume_well_drawn _ _ _ _ _) Hi)
    as (kc & kp & ks & ua & ka & ue & u1 & u2 & u3 & ut & uc & zv & z1 & z2
        & u4 & z3 & Hrow & _ & _ & _ & _ & _ & _ & [Ht0 Ht1] & [Hc0 Hc1]).
  set (a := pick ab_groups (searchsorted_right cdf_thirds ua)).
  exists (assemble num_users countries platforms user_segments ab_groups
            base_increase_percentage noise_level d),
    (assemble num_users countries platforms user_segments ab_groups
       base_increase_percentage' noise_level d).
  eexists _, _.
  exists a, (if String.eqb a "b" then -1 + 4 * ut else -2 + 4 * uc)%R.
  split; [exact Hrun |]. split; [exact Hrun' |]. split_and!.
  1-2: row_simpl Hrow; reflexivity.
  - row_simpl Hrow. fold a. unfold scale_to, treatment_range, control_range.
    cbn [fst snd]. destruct (String.eqb a "b"); f_equal; lra.
  - row_simpl Hrow. fold a. unfold scale_to, treatment_range, control_range.
    cbn [fst snd]. destruct (String.eqb a "b"); f_equal; lra.
  - intros ->. cbn. lra.
  - intros Hne. apply String.eqb_neq in Hne. rewrite Hne. lra.
Qed.

End Extras.

(** ** The projector on any table *)

(** X13. Nothing is lost of the columns the projector reads. When the
    [value] column has as many entries as the table has rows, the first
    half of the event log's [purchase_value] is [value] and the second half
    is [pre_test_value]; both halves carry the user ids in table order; the
    allocation and properties tables hold the [abgroup], [age], [country]
    and [platform] columns unchanged.  Every event is named ["purchase"]
    and every membership status is ["Free"]. *)
Theorem projection_keeps_columns (t : DataFrame) :
  length (value t) = len t ->
  exists ev al pr,
    create_dataframes t = inr (ev, al, pr)
    /\ take (len t) (purchase_value ev) = value t
    /\ drop (len t) (purchase_value ev) = pre_test_value t
    /\ take (len t) (ev_userid ev) = userid t
    /\ drop (len t) (ev_userid ev) = userid t
    /\ al_userid al = userid t
    /\ al_abgroup al = abgroup t
    /\ pr_userid pr = userid t
    /\ pr_age pr = age t
    /\ pr_country pr = country t
    /\ device_type pr = platform t
    /\ Forall (fun n => n = "purchase") (event_name ev)
    /\ Forall (fun m => m = "Free") (membership_status pr).
Proof.
  intros Hlen. eexists _, _, _. split; [apply create_dataframes_run |].
  cbn [purchase_value ev_userid al_userid al_abgroup pr_userid pr_age
       pr_country device_type event_name membership_status].
  split_and!; try reflexivity.
  - rewrite <- Hlen. apply take_app_length.
  - rewrite <- Hlen. apply drop_app_length.
  - unfold len. apply take_app_length.
  - unfold len. apply drop_app_length.
  - apply Forall_app. split; apply Forall_replicate; reflexivity.
  - apply Forall_replicate. reflexivity.
Qed.

(** X14. The projector reads seven columns only. Two tables that agree on
    [userid], [abgroup], [age], [country], [platform], [value] and
    [pre_test_value] give the same three tables: [user_segment],
    [engagement_score] and the three bucket columns never reach them. *)
Theorem projection_ignores_other_columns (t t' : DataFrame) :
  userid t = userid t' ->
  abgroup t = abgroup t' ->
  age t = age t' ->
  country t = country t' ->
  platform t = platform t' ->
  value t = value t' ->
  pre_test_value t = pre_test_value t' ->
  create_dataframes t = create_dataframes t'.
Proof.
  intros H1 H2 H3 H4 H5 H6 H7.
  rewrite !create_dataframes_run. unfold len.
  now rewrite H1, H2, H3, H4, H5, H6, H7.
Qed.

(** [two_users] with other segments, engagement scores and buckets. *)
Definition two_users_resegmented : DataFrame :=
  {| userid := [1; 2];
     country := ["US"; "US"];
     platform := ["iOS"; "iOS"];
     user_segment := ["Segment_2"; "Segment_3"];
     abgroup := ["a1"; "b"];
     age := [30; 41];
     engagement_score := [9; 1]%R;
     country_idx := [0; 0];
     platform_idx := [0; 0];
     segment_idx := [1; 2];
     value := [15; 18]%R;
     pre_test_value := [14; 16]%R |}.

(** ** The further properties on concrete inputs *)


Lemma age_and_engagement_ranges_witness :
  accepted 5 ["US"] ["iOS"] ["Segment_1"] ["a1"; "a2"; "b"] 1 40
  /\ exists t st',
       generate_synthetic_data (G := lehmer) 5 ["US"] ["iOS"] ["Segment_1"]
         ["a1"; "a2"; "b"] (5 / 100) 1 40 0 = inr (t, st')
       /\ Forall (fun a => 18 <= a < 65) (age t)
       /\ Forall (fun e => (0 <= e < 10)%R) (engagement_score t).
Proof.
  assert (Hacc : accepted 5 ["US"] ["iOS"] ["Segment_1"] ["a1"; "a2"; "b"]
                   1 40) by scenario_accepted.
  split; [exact Hacc |].
  exact (age_and_engagement_ranges (G := lehmer) 5 ["US"] ["iOS"]
           ["Segment_1"] ["a1"; "a2"; "b"] (5 / 100) 1 40 0 Hacc).
Defined.

Lemma table_is_rectangular_witness :
  accepted 5 ["US"] ["iOS"] ["Segment_1"] ["a1"; "a2"; "b"] 1 40
  /\ exists l st',
       generate_locals (G := lehmer) 5 ["US"] ["iOS"] ["Segment_1"]
         ["a1"; "a2"; "b"] (5 / 100) 1 40 0 = inr (l, st')
       /\ userid (df l) = [1; 2; 3; 4; 5]
       /\ length (abgroup (df l)) = 5%nat
       /\ length (value (df l)) = 5%nat
       /\ length (pre_test_value (df l)) = 5%nat.
Proof.
  assert (Hacc : accepted 5 ["US"] ["iOS"] ["Segment_1"] ["a1"; "a2"; "b"]
                   1 40) by scenario_accepted.
  split; [exact Hacc |].
  destruct (table_is_rectangular (G := lehmer) 5 ["US"] ["iOS"]
              ["Segment_1"] ["a1"; "a2"; "b"] (5 / 100) 1 40 0 Hacc)
    as (l & st' & Hrun & Hid & Hall).
  exists l, st'. split; [exact Hrun |]. split; [exact Hid |].
  split; [exact (Forall_lookup_1 _ _ 4%nat _ Hall eq_refl) |].
  split; [exact (Forall_lookup_1 _ _ 10%nat _ Hall eq_refl) |].
  exact (Forall_lookup_1 _ _ 11%nat _ Hall eq_refl).
Defined.

Lemma base_value_bounds_witness :
  accepted 5 ["US"] ["iOS"] ["Segment_1"] ["a1"; "a2"; "b"] 1 40
  /\ exists l st',
       generate_locals (G := lehmer) 5 ["US"] ["iOS"] ["Segment_1"]
         ["a1"; "a2"; "b"] (5 / 100) 1 40 0 = inr (l, st')
       /\ Forall (fun b => (118 / 10 <= b < 264 / 10)%R) (base_value l).
Proof.
  assert (Hacc : accepted 5 ["US"] ["iOS"] ["Segment_1"] ["a1"; "a2"; "b"]
                   1 40) by scenario_accepted.
  split; [exact Hacc |].
  exact (base_value_bounds (G := lehmer) 5 ["US"] ["iOS"] ["Segment_1"]
           ["a1"; "a2"; "b"] (5 / 100) 1 40 0 Hacc).
Defined.


Lemma noise_free_value_witness :
  accepted 5 ["US"] ["iOS"] ["Segment_1"] ["a1"; "a2"; "b"] 0 40
  /\ (0 < Z.to_nat 5)%nat
  /\ exists l st' bv c g,
       generate_locals (G := lehmer) 5 ["US"] ["iOS"] ["Segment_1"]
         ["a1"; "a2"; "b"] (5 / 100) 0 40 0 = inr (l, st')
       /\ base_value l !! O = Some bv
       /\ category_effect l !! O = Some c
       /\ group_effect l !! O = Some g
       /\ value_noise l !! O = Some 0%R
       /\ value (df l) !! O = Some (bv * (1 + c) * (1 + g))%R.
Proof.
  assert (Hacc : accepted 5 ["US"] ["iOS"] ["Segment_1"] ["a1"; "a2"; "b"]
                   0 40) by scenario_accepted.
  assert (Hi : (0 < Z.to_nat 5)%nat) by (vm_compute; lia).
  split; [exact Hacc |]. split; [exact Hi |].
  exact (noise_free_value (G := lehmer) 5 ["US"] ["iOS"] ["Segment_1"]
           ["a1"; "a2"; "b"] (5 / 100) 40 0 O Hacc Hi).
Defined.

Lemma zero_increase_no_group_effect_witness :
  accepted 5 ["US"] ["iOS"] ["Segment_1"] ["a1"; "a2"; "b"] 1 40
  /\ (0 < Z.to_nat 5)%nat
  /\ exists l st',
       generate_locals (G := lehmer) 5 ["US"] ["iOS"] ["Segment_1"]
         ["a1"; "a2"; "b"] 0 1 40 0 = inr (l, st')
       /\ group_effect l !! O = Some 0%R.
Proof.
  assert (Hacc : accepted 5 ["US"] ["iOS"] ["Segment_1"] ["a1"; "a2"; "b"]
                   1 40) by scenario_accepted.
  assert (Hi : (0 < Z.to_nat 5)%nat) by (vm_compute; lia).
  split; [exact Hacc |]. split; [exact Hi |].
  destruct (zero_increase_no_group_effect (G := lehmer) 5 ["US"] ["iOS"]
              ["Segment_1"] ["a1"; "a2"; "b"] 1 40 0 O Hacc Hi)
    as (l & st' & bv & c & z & Hrun & _ & _ & _ & Hg & _).
  exists l, st'. split; assumption.
Defined.

Lemma effect_parameters_reach_only_abgroup_and_value_witness :
  accepted 5 ["US"] ["iOS"] ["Segment_1"] ["a1"; "a2"; "b"] 1 40
  /\ length ["b"; "c"; "d"] = 3%nat
  /\ (0 <= 3)%R
  /\ exists t t' s s',
       generate_synthetic_data (G := lehmer) 5 ["US"] ["iOS"] ["Segment_1"]
         ["a1"; "a2"; "b"] (5 / 100) 1 40 0 = inr (t, s)
       /\ generate_synthetic_data (G := lehmer) 5 ["US"] ["iOS"]
            ["Segment_1"] ["b"; "c"; "d"] (50 / 100) 3 40 9 = inr (t', s')
       /\ s = s'
       /\ age t = age t'
       /\ engagement_score t = engagement_score t'
       /\ pre_test_value t = pre_test_value t'.
Proof.
  assert (Hacc : accepted 5 ["US"] ["iOS"] ["Segment_1"] ["a1"; "a2"; "b"]
                   1 40) by scenario_accepted.
  assert (Hab : length ["b"; "c"; "d"] = 3%nat) by reflexivity.
  assert (Hn : (0 <= 3)%R) by lra.
  split; [exact Hacc |]. split; [exact Hab |]. split; [exact Hn |].
  destruct (effect_parameters_reach_only_abgroup_and_value (G := lehmer) 5
              ["US"] ["iOS"] ["Segment_1"] ["a1"; "a2"; "b"] ["b"; "c"; "d"]
              (5 / 100) (50 / 100) 1 3 40 0 9 Hacc Hab Hn)
    as (t & t' & s & s' & ks & H1 & H2 & H3 & _ & _ & _ & _ & H4 & H5 & _ & _
        & _ & H6 & _).
  exists t, t', s, s'. split_and!; assumption.
Defined.




Lemma group_effect_is_proportional_witness :
  accepted 5 ["US"] ["iOS"] ["Segment_1"] ["a1"; "a2"; "b"] 1 40
  /\ (0 < Z.to_nat 5)%nat
  /\ exists l l' s s' k,
       generate_locals (G := lehmer) 5 ["US"] ["iOS"] ["Segment_1"]
         ["a1"; "a2"; "b"] (5 / 100) 1 40 0 = inr (l, s)
       /\ generate_locals (G := lehmer) 5 ["US"] ["iOS"] ["Segment_1"]
            ["a1"; "a2"; "b"] (20 / 100) 1 40 0 = inr (l', s')
       /\ group_effect l !! O = Some (5 / 100 * k)%R
       /\ group_effect l' !! O = Some (20 / 100 * k)%R
       /\ (-2 <= k < 3)%R.
Proof.
  assert (Hacc : accepted 5 ["US"] ["iOS"] ["Segment_1"] ["a1"; "a2"; "b"]
                   1 40) by scenario_accepted.
  assert (Hi : (0 < Z.to_nat 5)%nat) by (vm_compute; lia).
  split; [exact Hacc |]. split; [exact Hi |].
  destruct (group_effect_is_proportional (G := lehmer) 5 ["US"] ["iOS"]
              ["Segment_1"] ["a1"; "a2"; "b"] (5 / 100) (20 / 100) 1 40 0 0 O
              Hacc Hi)
    as (l & l' & s & s' & a & k & H1 & H2 & _ & _ & H3 & H4 & Hb & Hnb).
  exists l, l', s, s', k. split_and!; try assumption.
  - destruct (String.eqb_spec a "b") as [E | E];
      [pose proof (Hb E) | pose proof (Hnb E)]; lra.
  - destruct (String.eqb_spec a "b") as [E | E];
      [pose proof (Hb E) | pose proof (Hnb E)]; lra.
Defined.

Lemma projection_keeps_columns_witness :
  length (value two_users) = len two_users
  /\ exists ev al pr,
       create_dataframes two_users = inr (ev, al, pr)
       /\ take 2 (purchase_value ev) = [15; 18]%R
       /\ drop 2 (purchase_value ev) = [14; 16]%R
       /\ al_abgroup al = ["a1"; "b"]
       /\ device_type pr = ["iOS"; "iOS"].
Proof.
  assert (Hlen : length (value two_users) = len two_users) by reflexivity.
  split; [exact Hlen |].
  destruct (projection_keeps_columns two_users Hlen)
    as (ev & al & pr & Hrun & H1 & H2 & _ & _ & _ & H3 & _ & _ & _ & H4 & _).
  exists ev, al, pr. split_and!; assumption.
Defined.

Lemma projection_ignores_other_columns_witness :
  user_segment two_users <> user_segment two_users_resegmented
  /\ create_dataframes two_users = create_dataframes two_users_resegmented.
Proof.
  split; [discriminate |].
  exact (projection_ignores_other_columns two_users two_users_resegmented
           eq_refl eq_refl eq_refl eq_refl eq_refl eq_refl eq_refl).
Defined.
